(** * GitHub-CommitHistory-Tracker: a shallow embedding of
      [commitHistoryTracker.py] and the properties of its three functions
      [get_commit_history], [find_git_repos] and [collect_all_commits].

    Python values are modelled as follows.
    - [str] is [string]; a character stands for a code point below 256.
    - [datetime] is a record of its fields, [tzinfo] being the UTC offset in
      microseconds of an aware value and [None] for a naive one.
    - a [set] of strings is a [gset string]; its iteration order is the one
      of [elements], which no theorem depends on.
    - paths below the scanned root are lists of directory names.
    - [print] appends a line to the console output threaded through the
      [Out] monad.
    - the file system is a finite tree without symbolic links and [git] is a
      function from a working directory and a command line to the completed
      process.
    - the data frame is the list of its rows; [Frame] holds the operations
      the script calls on it, with the exceptions they raise. *)

From Stdlib Require Import ZArith List String Ascii Bool Lia Permutation Sorted.
From stdpp Require Import base list strings pretty gmap sets sorting.

Local Open Scope string_scope.
Local Open Scope Z_scope.
Local Open Scope list_scope.

#[local] Arguments String.append !_ _ / : simpl nomatch.

(** ** Strings *)

Module Str.

(** [s.split(sep, maxsplit)] for a separator of one character; [None] is
    Python's default [maxsplit = -1]. *)
Fixpoint split (sep : ascii) (maxsplit : option nat) (s : string) : list string :=
  match maxsplit with
  | Some O => [s]
  | _ =>
    match s with
    | "" => [""]
    | String c s' =>
      if Ascii.eqb c sep then "" :: split sep (Nat.pred <$> maxsplit) s'
      else match split sep maxsplit s' with
           | [] => [String c ""]
           | f :: fs => String c f :: fs
           end
    end
  end.

(** [s.replace(old, new)] for [old] of one character. *)
Fixpoint replace (old : ascii) (new : string) (s : string) : string :=
  match s with
  | "" => ""
  | String c s' =>
    (if Ascii.eqb c old then new else String c "") +:+ replace old new s'
  end.

(** [c.lower()] on the code points below 256: the ASCII capitals and the
    Latin-1 capitals U+00C0..U+00DE except the multiplication sign. *)
Definition chr_lower (c : ascii) : ascii :=
  let n := N_of_ascii c in
  if ((65 <=? n) && (n <=? 90) ||
      (192 <=? n) && (n <=? 222) && negb (n =? 215))%N
  then ascii_of_N (n + 32) else c.

Fixpoint lower (s : string) : string :=
  match s with
  | "" => ""
  | String c s' => String (chr_lower c) (lower s')
  end.

(** [s.startswith(p)] *)
Fixpoint startswith (p s : string) : bool :=
  match p, s with
  | "", _ => true
  | String a p', String b s' => Ascii.eqb a b && startswith p' s'
  | String _ _, "" => false
  end.

(** [sub in s] *)
Fixpoint contains (sub s : string) : bool :=
  startswith sub s ||
  match s with
  | "" => false
  | String _ s' => contains sub s'
  end.

(** [sep.join(l)] *)
Fixpoint join (sep : string) (l : list string) : string :=
  match l with
  | [] => ""
  | [x] => x
  | x :: l' => x +:+ sep +:+ join sep l'
  end.

(** The line boundaries of [str.splitlines] below U+0100: LF, VT, FF, CR,
    FS, GS, RS and NEL. *)
Definition is_linebreak (c : ascii) : bool :=
  let n := N_of_ascii c in
  ((10 <=? n) && (n <=? 13) || (28 <=? n) && (n <=? 30) || (n =? 133))%N.

(** [s.splitlines()]: CR LF counts as one boundary and a final boundary
    opens no empty last line. *)
Fixpoint splitlines (s : string) : list string :=
  match s with
  | "" => []
  | String c s' =>
    if is_linebreak c then
      "" :: match s' with
            | String c' s'' =>
              if Ascii.eqb c "013" && Ascii.eqb c' "010" then splitlines s''
              else splitlines s'
            | "" => []
            end
    else match splitlines s' with
         | [] => [String c ""]
         | l :: ls => String c l :: ls
         end
  end.

(** Number of occurrences of a character: [s.count(c)]. *)
Fixpoint count (c : ascii) (s : string) : nat :=
  match s with
  | "" => O
  | String a s' => (if Ascii.eqb a c then 1 else 0)%nat + count c s'
  end.

End Str.

(** ** Exceptions *)

Inductive exn := TypeError | AttributeError.

Inductive result (A : Type) : Type :=
| Ok (a : A)
| Raise (e : exn).
Arguments Ok {A} a.
Arguments Raise {A} e.

(** ** [datetime] and [datetime.fromisoformat] *)

Record datetime := mkDatetime {
  year : Z; month : Z; day : Z;
  hour : Z; minute : Z; second : Z; microsecond : Z;
  tzinfo : option Z
}.

Module Iso.

Definition digit_value (c : ascii) : option Z :=
  let n := N_of_ascii c in
  if ((48 <=? n) && (n <=? 57))%N then Some (Z.of_N n - 48) else None.

(** Reads exactly [n] ASCII digits from the front of [s]. *)
Fixpoint parse_digits (n : nat) (acc : Z) (s : string) : option (Z * string) :=
  match n, s with
  | O, _ => Some (acc, s)
  | S n', String c s' =>
    d ← digit_value c; parse_digits n' (acc * 10 + d) s'
  | S _, "" => None
  end.

Definition expect (c : ascii) (s : string) : option string :=
  match s with
  | String a s' => if Ascii.eqb a c then Some s' else None
  | "" => None
  end.

(** [_parse_isoformat_date]: [YYYY-MM-DD], returning what follows it. *)
Definition parse_isoformat_date (s : string) : option (Z * Z * Z * string) :=
  '(y, s) ← parse_digits 4 0 s;
  s ← expect "-" s;
  '(m, s) ← parse_digits 2 0 s;
  s ← expect "-" s;
  '(d, s) ← parse_digits 2 0 s;
  Some (y, m, d, s).

(** [_parse_hh_mm_ss_ff]: [HH[:MM[:SS[.fff[fff]]]]], the whole string. *)
Definition parse_fraction (s : string) : option Z :=
  if (String.length s =? 3)%nat then
    '(f, _) ← parse_digits 3 0 s; Some (f * 1000)
  else if (String.length s =? 6)%nat then
    '(f, _) ← parse_digits 6 0 s; Some f
  else None.

Definition parse_hh_mm_ss_ff (s : string) : option (Z * Z * Z * Z) :=
  '(h, s) ← parse_digits 2 0 s;
  match s with
  | "" => Some (h, 0, 0, 0)
  | String c s =>
    if negb (Ascii.eqb c ":") then None else
    '(m, s) ← parse_digits 2 0 s;
    match s with
    | "" => Some (h, m, 0, 0)
    | String c s =>
      if negb (Ascii.eqb c ":") then None else
      '(sec, s) ← parse_digits 2 0 s;
      match s with
      | "" => Some (h, m, sec, 0)
      | String c s =>
        if negb (Ascii.eqb c ".") then None else
        f ← parse_fraction s; Some (h, m, sec, f)
      end
    end
  end.

(** The part of [s] before and after the first occurrence of [c]. *)
Fixpoint partition (c : ascii) (s : string) : option (string * string) :=
  match s with
  | "" => None
  | String a s' =>
    if Ascii.eqb a c then Some ("", s')
    else '(b, r) ← partition c s'; Some (String a b, r)
  end.

(** [timezone(tzsign * td)] accepts offsets strictly between -24 h and
    24 h; the offset is kept in microseconds. *)
Definition parse_tz (sign : Z) (tzstr : string) : option Z :=
  let n := String.length tzstr in
  if negb ((n =? 5) || (n =? 8) || (n =? 15))%nat then None else
  '(h, m, s, f) ← parse_hh_mm_ss_ff tzstr;
  let off := sign * (((h * 3600 + m * 60 + s) * 1000000) + f) in
  if (-86400000000 <? off) && (off <? 86400000000) then Some off else None.

(** [_parse_isoformat_time]: the time of day and the optional offset, which
    starts at the first [-] if there is one and at the first [+] otherwise. *)
Definition parse_isoformat_time (tstr : string)
  : option (Z * Z * Z * Z * option Z) :=
  if (String.length tstr <? 2)%nat then None else
  match partition "-" tstr with
  | Some (timestr, tzstr) =>
    t ← parse_hh_mm_ss_ff timestr; off ← parse_tz (-1) tzstr; Some (t, Some off)
  | None =>
    match partition "+" tstr with
    | Some (timestr, tzstr) =>
      t ← parse_hh_mm_ss_ff timestr; off ← parse_tz 1 tzstr; Some (t, Some off)
    | None => t ← parse_hh_mm_ss_ff tstr; Some (t, None)
    end
  end.

Definition is_leap (y : Z) : bool :=
  (y mod 4 =? 0) && (negb (y mod 100 =? 0) || (y mod 400 =? 0)).

Definition days_in_month (y m : Z) : Z :=
  if m =? 2 then (if is_leap y then 29 else 28)
  else if (m =? 4) || (m =? 6) || (m =? 9) || (m =? 11) then 30 else 31.

(** The range checks of the [datetime] constructor. *)
Definition valid_fields (y m d hh mm ss us : Z) : bool :=
  (1 <=? y) && (y <=? 9999) && (1 <=? m) && (m <=? 12) &&
  (1 <=? d) && (d <=? days_in_month y m) &&
  (0 <=? hh) && (hh <=? 23) && (0 <=? mm) && (mm <=? 59) &&
  (0 <=? ss) && (ss <=? 59) && (0 <=? us) && (us <=? 999999).

Definition valid (d : datetime) : bool :=
  valid_fields (year d) (month d) (day d)
               (hour d) (minute d) (second d) (microsecond d).

Definition make (y m d hh mm ss us : Z) (tz : option Z) : option datetime :=
  if valid_fields y m d hh mm ss us
  then Some (mkDatetime y m d hh mm ss us tz) else None.

(** The grammar [YYYY-MM-DD[*HH[:MM[:SS[.fff[fff]]]][+HH:MM[:SS[.ffffff]]]]]
    where [*] is any one character, as documented for Python 3.7 to 3.10,
    with the digits read as the C implementation reads them. (Python 3.11
    accepts more ISO 8601 forms, in which a letter other than the one
    separator, [W] and a final [Z] is refused all the same.) *)
Definition parse (s : string) : option datetime :=
  '(y, m, d, rest) ← parse_isoformat_date s;
  match rest with
  | "" => make y m d 0 0 0 0 None
  | String _ tstr =>
    '(hh, mm, ss, us, tz) ← parse_isoformat_time tstr;
    make y m d hh mm ss us tz
  end.

End Iso.

(** [datetime.fromisoformat(s)]: the only exception it raises on a string
    is [ValueError], which is the [None] here. *)
Definition fromisoformat (s : string) : option datetime := Iso.parse s.

(** ** Ordering and rendering of timestamps *)

Module DT.

(** [_days_before_year], [_days_before_month] and [_ymd2ord] of the
    proleptic Gregorian calendar. *)
Definition days_before_year (y : Z) : Z :=
  (y - 1) * 365 + (y - 1) / 4 - (y - 1) / 100 + (y - 1) / 400.

Fixpoint days_before_month_aux (y : Z) (m : nat) : Z :=
  match m with
  | O => 0
  | S m' => days_before_month_aux y m' + Iso.days_in_month y (Z.of_nat m)
  end.

Definition days_before_month (y m : Z) : Z :=
  days_before_month_aux y (Z.to_nat (m - 1)).

Definition ymd2ord (y m d : Z) : Z :=
  days_before_year y + days_before_month y m + d.

(** Microseconds on the wall clock since the start of day 0. *)
Definition wall (d : datetime) : Z :=
  ((ymd2ord (year d) (month d) (day d) * 24 + hour d) * 60 + minute d) * 60000000
  + second d * 1000000 + microsecond d.

(** The instant a value is ordered by: an aware value is compared in UTC. *)
Definition instant (d : datetime) : Z :=
  wall d - default 0 (tzinfo d).

Definition digit_char (n : Z) : ascii :=
  ascii_of_N (48 + Z.to_N (n mod 10)).

Definition pad2 (n : Z) : string :=
  String (digit_char (n / 10)) (String (digit_char n) "").

Definition pad4 (n : Z) : string :=
  String (digit_char (n / 1000)) (String (digit_char (n / 100)) (pad2 n)).

(** [d.strftime("%Y-%m-%d %H:%M:%S")] *)
Definition strftime (d : datetime) : string :=
  pad4 (year d) +:+ "-" +:+ pad2 (month d) +:+ "-" +:+ pad2 (day d) +:+ " " +:+
  pad2 (hour d) +:+ ":" +:+ pad2 (minute d) +:+ ":" +:+ pad2 (second d).




End DT.

(** ** Console output *)

Definition Out (A : Type) : Type := (A * list string)%type.

Definition ret {A} (a : A) : Out A := (a, []).

Definition bind {A B} (m : Out A) (k : A -> Out B) : Out B :=
  let '(a, o1) := m in let '(b, o2) := k a in (b, o1 ++ o2).

Definition print (s : string) : Out unit := (tt, [s]).

Notation "x <~ m ;; k" := (bind m (fun x => k))
  (at level 100, m at next level, right associativity, only parsing).
Notation "m ;;; k" := (bind m (fun _ => k))
  (at level 100, right associativity, only parsing).

(** ** The file system and the [git] subprocess *)

#[local] Unset Elimination Schemes.
Inductive node :=
| File
| Dir (entries : list (string * node)).
#[local] Set Elimination Schemes.

Definition path := list string.

Definition is_dir (n : node) : bool :=
  match n with Dir _ => true | File => false end.

Fixpoint lookup_entry (name : string) (es : list (string * node)) : option node :=
  match es with
  | [] => None
  | (n, c) :: es' => if String.eqb n name then Some c else lookup_entry name es'
  end.

Fixpoint resolve (n : node) (p : path) : option node :=
  match p with
  | [] => Some n
  | x :: p' =>
    match n with
    | Dir es => c ← lookup_entry x es; resolve c p'
    | File => None
    end
  end.

(** The names [os.walk] reports in [dirs] and in [files]. *)
Definition dir_names (es : list (string * node)) : list string :=
  fst <$> filter (λ e, is_dir (snd e) = true) es.

Definition file_names (es : list (string * node)) : list string :=
  fst <$> filter (λ e, is_dir (snd e) = false) es.

(** [l.remove(x)]: the first occurrence goes. *)
Fixpoint list_remove (x : string) (l : list string) : list string :=
  match l with
  | [] => []
  | y :: l' => if String.eqb y x then l' else y :: list_remove x l'
  end.

Record CompletedProcess := mkProcess {
  returncode : Z;
  stdout : string;
  stderr : string
}.

(** [os.walk(top)], top-down: [body] is the loop body of the caller, run on
    [(root, dirs, files)] with the caller's state; it returns the new state
    and [dirs] as the body left it, and only the directories still listed
    there are walked into. *)
Section Walk.
Context {St : Type}.
Variable body : path -> list string -> list string -> St -> St * list string.

Fixpoint os_walk (root : path) (n : node) (acc : St) : St :=
  match n with
  | File => acc
  | Dir es =>
    let '(acc, dirs) := body root (dir_names es) (file_names es) acc in
    (fix descend (es : list (string * node)) (acc : St) : St :=
       match es with
       | [] => acc
       | (name, child) :: es' =>
         descend es'
           (if is_dir child && bool_decide (name ∈ dirs)
            then os_walk (root ++ [name]) child acc else acc)
       end) es acc
  end.
End Walk.

(** ** The tracker *)

(** The configuration constants of the module. *)
Record config := mkConfig {
  REPOS_DIR : string;
  YOUR_USERNAMES : list string;
  START_DATE : string;
  END_DATE : string
}.

(** What a run reads: the tree found at [REPOS_DIR] and the answers of
    [subprocess.run(cmd, cwd=repo_dir, text=True, capture_output=True)]. *)
Record world := mkWorld {
  fs : node;
  git : path -> list string -> CompletedProcess
}.

(** A commit record [[repo_name, date_obj, message]]. *)
Record commit := mkCommit {
  c_repo : string;
  c_date : datetime;
  c_message : string
}.

(** A row of the exported sheet. *)
Record row := mkRow {
  Repository : string;
  Date : string;
  Commit_Message : string
}.

(** Truth value of an optional string argument: [None] and [""] are false. *)
Definition truthy (o : option string) : bool :=
  match o with
  | Some s => negb (String.eqb s "")
  | None => false
  end.

(** [f"{x}"] of an optional string. *)
Definition fmt (o : option string) : string := default "None" o.

(** The text after the last [/]: [os.path.basename] of a path string. *)
Fixpoint str_basename (s : string) : string :=
  match s with
  | "" => ""
  | String c s' =>
    if Ascii.eqb c "/" then str_basename s'
    else if Str.contains "/" s' then str_basename s' else s
  end.

(** [os.path.join(a, b)] of two path strings, [b] relative. *)
Definition os_path_join (a b : string) : string :=
  if String.eqb a "" then b
  else if String.eqb (str_basename a) "" then a +:+ b
  else a +:+ "/" +:+ b.

(** ** The data frame *)

Global Instance result_ret : MRet result := λ _ a, Ok a.
Global Instance result_bind : MBind result := λ _ _ f m,
  match m with
  | Ok a => f a
  | Raise e => Raise e
  end.

(** How a run of [collect_all_commits] ends: the sheet written to
    [OUTPUT_EXCEL], no file at all, or an exception out of the frame
    operations before anything is written. *)
Inductive outcome :=
| Written (sheet : list row)
| NotWritten
| Failed (e : exn).

Module Frame.

(** The values of the Date column are all naive or all of one UTC offset. *)
Definition uniform_tz (l : list commit) : bool :=
  match l with
  | [] => true
  | c :: l' =>
    forallb (λ x, bool_decide (tzinfo (c_date x) = tzinfo (c_date c))) l'
  end.

(** The years a timestamp of nanosecond resolution covers in full. *)
Definition in_bounds (c : commit) : bool :=
  (1678 <=? year (c_date c)) && (year (c_date c) <=? 2261).

(** The Date column holds datetimes as such when its values are uniform
    and within the bounds of the nanosecond resolution; any other column
    holds plain objects. (A frame library that keeps datetimes at a coarser
    resolution also takes the values out of these bounds; no statement
    below relies on their being refused.) *)
Definition datetimelike (l : list commit) : bool :=
  uniform_tz l && forallb in_bounds l.

(** Comparing a naive with an aware value is a [TypeError]. *)
Definition comparable (l : list commit) : bool :=
  match l with
  | [] => true
  | c :: l' =>
    forallb (λ x, Bool.eqb (bool_decide (tzinfo (c_date x) = None))
                           (bool_decide (tzinfo (c_date c) = None))) l'
  end.

Definition key (c : commit) : Z := DT.instant (c_date c).

Fixpoint insert (c : commit) (l : list commit) : list commit :=
  match l with
  | [] => [c]
  | x :: l' => if key c <=? key x then c :: l else x :: insert c l'
  end.

(** A stable ascending sort. *)
Definition sort (l : list commit) : list commit := foldr insert [] l.

(** [df.sort_values(by="Date", ascending=False)]: the rows are reversed,
    sorted ascending, and reversed again. *)
Definition sort_values_desc (l : list commit) : result (list commit) :=
  if comparable l then Ok (rev (sort (rev l))) else Raise TypeError.

Definition to_row (c : commit) : row :=
  mkRow (c_repo c) (DT.strftime (c_date c)) (c_message c).

(** [df["Date"] = df["Date"].dt.strftime("%Y-%m-%d %H:%M:%S")]: the [.dt]
    accessor exists on a column of datetimes only. *)
Definition format_dates (l : list commit) : result (list row) :=
  if datetimelike l then Ok (to_row <$> l) else Raise AttributeError.

End Frame.

Section Tracker.
Variable cfg : config.
Variable w : world.

(** [OUTPUT_EXCEL = os.path.join(REPOS_DIR, "commit_history.xlsx")] *)
Definition OUTPUT_EXCEL : path := ["commit_history.xlsx"].

(** [os.path.basename]: the last component, and for the root itself the
    last component of [REPOS_DIR]. *)
Definition basename (p : path) : string :=
  match p with
  | [] => str_basename (REPOS_DIR cfg)
  | _ => List.last p ""
  end.

(** [os.path.relpath(p, REPOS_DIR)] *)
Definition relpath (p : path) : string :=
  match p with
  | [] => "."
  | _ => Str.join "/" p
  end.

(** [os.path.isdir] *)
Definition isdir (p : path) : bool :=
  match resolve (fs w) p with
  | Some n => is_dir n
  | None => false
  end.

(** *** [get_commit_history] *)

Definition all_authors_cmd : list string := ["git"; "log"; "--format=%an"].

Definition git_cmd (start_date end_date : option string) : list string :=
  ["git"; "log"; "--pretty=format:%cd,%an,%s"; "--date=iso"]
  ++ (if truthy start_date && truthy end_date
      then ["--since=" +:+ fmt start_date; "--until=" +:+ fmt end_date]
      else []).

(** [date_str.replace(" ", "T").replace("Z", "+00:00")] *)
Definition normalize (date_str : string) : string :=
  Str.replace "Z" "+00:00" (Str.replace " " "T" date_str).

Definition matches_username (author : string) : bool :=
  existsb (λ username, Str.contains (Str.lower username) (Str.lower author))
          (YOUR_USERNAMES cfg).

(** One turn of the loop over the lines: the new [commit_history]. *)
Definition process_line (repo_name : string) (commit_history : list commit)
           (line : string) : list commit :=
  match Str.split "," (Some 2%nat) line with
  | [date_str; author; message] =>
    match fromisoformat (normalize date_str) with
    | Some date_obj =>
      if matches_username author
      then commit_history ++ [mkCommit repo_name date_obj message]
      else commit_history
    | None => commit_history
    end
  | _ => commit_history
  end.

Definition get_commit_history (repo_dir : path)
           (start_date end_date : option string)
  : Out (list commit * gset string) :=
  let repo_name := relpath repo_dir in
  if negb (isdir (repo_dir ++ [".git"])) then
    print ("  Skipping " +:+ repo_name +:+ " - not a git repository") ;;;
    ret ([], ∅)
  else
    let all_authors_result := git w repo_dir all_authors_cmd in
    all_authors <~
      (if returncode all_authors_result =? 0 then
         let all_authors : gset string :=
           list_to_set (Str.splitlines (stdout all_authors_result)) in
         print ("  All authors in " +:+ repo_name +:+ ": "
                +:+ Str.join ", " (elements all_authors)) ;;;
         ret all_authors
       else ret ∅) ;;
    let git_cmd := git_cmd start_date end_date in
    print ("  Running command: " +:+ Str.join " " git_cmd) ;;;
    let result := git w repo_dir git_cmd in
    commit_history <~
      (if returncode result =? 0 then
         let lines := Str.splitlines (stdout result) in
         print ("  Found " +:+ pretty (length lines)
                +:+ " total commit entries") ;;;
         let commit_history := fold_left (process_line repo_name) lines [] in
         print ("  Found " +:+ pretty (length commit_history)
                +:+ " commits matching your username(s)") ;;;
         ret commit_history
       else
         print ("  Error running git log: " +:+ stderr result) ;;;
         ret []) ;;
    ret (commit_history, all_authors).

(** *** [find_git_repos] *)

(** [os.path.basename(OUTPUT_EXCEL).split(".")[0]] *)
Definition output_name : string :=
  List.hd "" (Str.split "." None (List.last OUTPUT_EXCEL "")).

(** The body of the loop over [os.walk]: the new [git_repos] and [dirs]. *)
Definition visit (root : path) (dirs files : list string)
           (git_repos : list path) : list path * list string :=
  if String.eqb (basename root) output_name then (git_repos, dirs)
  else if bool_decide (".git" ∈ dirs) || isdir (root ++ [".git"]) then
    (git_repos ++ [root],
     if bool_decide (".git" ∈ dirs) then list_remove ".git" dirs else dirs)
  else (git_repos, dirs).

(** [find_git_repos(REPOS_DIR)]: the paths are relative to [REPOS_DIR]. *)
Definition find_git_repos : list path :=
  os_walk visit [] (fs w) [].

(** *** [collect_all_commits] *)

Fixpoint process_repos (git_repos : list path)
         (acc : list commit * gset string) : Out (list commit * gset string) :=
  match git_repos with
  | [] => ret acc
  | repo_path :: rest =>
    let repo_name := relpath repo_path in
    print ("Processing repository: " +:+ repo_name) ;;;
    r <~ get_commit_history repo_path
           (Some (START_DATE cfg)) (Some (END_DATE cfg)) ;;
    process_repos rest (acc.1 ++ r.1, acc.2 ∪ r.2)
  end.

(** The columns of the frame, once sorted and formatted. *)
Definition sheet (all_commits : list commit) : result (list row) :=
  df ← Frame.sort_values_desc all_commits;
  Frame.format_dates df.

Definition collect_all_commits : Out outcome :=
  print ("Collecting commits from " +:+ START_DATE cfg
         +:+ " to " +:+ END_DATE cfg) ;;;
  print ("Looking for commits by usernames: "
         +:+ Str.join ", " (YOUR_USERNAMES cfg)) ;;;
  let git_repos := find_git_repos in
  print ("Found " +:+ pretty (length git_repos) +:+ " Git repositories") ;;;
  r <~ process_repos git_repos ([], ∅) ;;
  let all_commits := r.1 in
  let all_unique_authors := r.2 in
  print (String "010" "=== Summary ===") ;;;
  print ("All unique authors found across repositories: "
         +:+ Str.join ", " (elements all_unique_authors)) ;;;
  print ("Your configured usernames: "
         +:+ Str.join ", " (YOUR_USERNAMES cfg)) ;;;
  match all_commits with
  | _ :: _ =>
    match sheet all_commits with
    | Ok df =>
      print ("Commit history has been exported to "
             +:+ os_path_join (REPOS_DIR cfg) (Str.join "/" OUTPUT_EXCEL)) ;;;
      print ("Total commits found: " +:+ pretty (length df)) ;;;
      ret (Written df)
    | Raise e => ret (Failed e)
    end
  | [] =>
    print "No commits found for your username." ;;;
    print "Please check if your username(s) match any of the authors listed above." ;;;
    ret NotWritten
  end.
End Tracker.

(** ** Notions used in the statements, and sample inputs *)

(** What the spec calls containing a substring. *)
Definition is_substring (sub s : string) : Prop :=
  ∃ pre post, s = pre +:+ sub +:+ post.

(** The answer of the commit-log query of [get_commit_history]. *)
Definition log_query (w : world) (repo_dir : path)
           (start_date end_date : option string) : CompletedProcess :=
  git w repo_dir (git_cmd start_date end_date).

(** The answer of the author query of [get_commit_history]. *)
Definition author_query (w : world) (repo_dir : path) : CompletedProcess :=
  git w repo_dir all_authors_cmd.

Definition cfg_alice : config :=
  mkConfig "path/to/repositories" ["Alice"] "2024-01-01" "2024-12-31".

Definition is_date_flag (arg : string) : bool :=
  Str.startswith "--since=" arg || Str.startswith "--until=" arg.

(** The call the orchestrator makes for one repository. *)
Definition extract (cfg : config) (w : world) (repo_path : path)
  : Out (list commit * gset string) :=
  get_commit_history cfg w repo_path (Some (START_DATE cfg)) (Some (END_DATE cfg)).

(** [all_commits] and [all_unique_authors] once the loop over the
    repositories is over. *)
Definition all_commits (cfg : config) (w : world) : list commit :=
  (process_repos cfg w (find_git_repos cfg w) ([], ∅)).1.1.

Definition all_unique_authors (cfg : config) (w : world) : gset string :=
  (process_repos cfg w (find_git_repos cfg w) ([], ∅)).1.2.

(** The line feed that ends a line of [stdout]. *)
Definition nl : string := String "010" "".

(** A tree with two repositories, [a] and [b]. *)
Definition sample_tree : node :=
  Dir [("a", Dir [(".git", Dir [("objects", Dir [])]); ("src", Dir [])]);
       ("notes.txt", File);
       ("b", Dir [(".git", Dir [])])].

(** A [git] that lists the authors [alice-dev] and [bob] everywhere, answers
    the commit query of [a] with [log_a] and fails on any other commit
    query. *)
Definition sample_git (log_a : string) (repo_dir : path) (cmd : list string)
  : CompletedProcess :=
  if bool_decide (cmd = all_authors_cmd)
  then mkProcess 0 ("alice-dev" +:+ nl +:+ "bob" +:+ nl +:+ "bob" +:+ nl) ""
  else if bool_decide (repo_dir = ["a"]) then mkProcess 0 log_a ""
  else mkProcess 128 "" "fatal: bad revision".

Definition sample_world (log_a : string) : world :=
  mkWorld sample_tree (sample_git log_a).

Definition log_bob : string :=
  "2024-01-01 10:00:00,bob,first" +:+ nl +:+ "2024-01-03 09:00:00,bob,second".

Definition log_alice : string :=
  "2024-01-01 10:00:00,alice-dev,fix: a, b, c" +:+ nl +:+
  "2024-01-03 09:00:00,Alice,second".

Definition ascending (a b : commit) : Prop := Frame.key a ≤ Frame.key b.
Definition descending (a b : commit) : Prop := Frame.key b ≤ Frame.key a.

(** A directory lists each name once, at every level. *)
Fixpoint wf (n : node) : bool :=
  match n with
  | File => true
  | Dir es =>
    bool_decide (NoDup es.*1) &&
    (fix all (es : list (string * node)) : bool :=
       match es with
       | [] => true
       | (_, child) :: es' => wf child && all es'
       end) es
  end.

(** [selected n root rel]: the walk started at the node [n] of path [root]
    reaches [root ++ rel] and appends it to [git_repos]. *)
Fixpoint selected (cfg : config) (n : node) (root rel : path) : Prop :=
  match n with
  | File => False
  | Dir es =>
    let here := basename cfg root ≠ output_name ∧ ".git" ∈ dir_names es in
    match rel with
    | [] => here
    | x :: rel' =>
      match lookup_entry x es with
      | Some child =>
        is_dir child = true ∧ ¬ (x = ".git" ∧ here) ∧
        selected cfg child (root ++ [x]) rel'
      | None => False
      end
    end
  end.

Definition hereb (cfg : config) (root : path) (es : list (string * node)) : bool :=
  negb (String.eqb (basename cfg root) output_name)
  && bool_decide (".git" ∈ dir_names es).

(** What the walk below [root] adds, for one node. *)
Definition walk_ok (cfg : config) (w : world) (n : node) : Prop :=
  ∀ root acc,
    wf n = true → resolve (fs w) root = Some n →
    ∃ l, os_walk (visit cfg w) root n acc = acc ++ l ∧ NoDup l ∧
         ∀ p, p ∈ l ↔ ∃ rel, p = root ++ rel ∧ selected cfg n root rel.

Definition descend_step (cfg : config) (w : world) (root : path)
           (dirs : list string) (acc : list path) (e : string * node)
  : list path :=
  if is_dir e.2 && bool_decide (e.1 ∈ dirs)
  then os_walk (visit cfg w) (root ++ [e.1]) e.2 acc else acc.

(** A tree with a repository [a] holding a directory with a [.git] of its
    own inside [a/.git], a repository named [commit_history], a nested
    repository [b/c], and a [.git] that is a file. *)
Definition nested_tree : node :=
  Dir [("a", Dir [(".git", Dir [("x", Dir [(".git", Dir [])])]);
                  ("src", Dir [])]);
       ("commit_history", Dir [(".git", Dir []); ("sub", Dir [(".git", Dir [])])]);
       ("b", Dir [("c", Dir [(".git", Dir [])]); (".git", File)])].

Definition nested_world : world := mkWorld nested_tree (sample_git log_alice).

(** A filter that holds the empty string, and one that holds nothing. *)
Definition cfg_anyone : config :=
  mkConfig "path/to/repositories" ["Alice"; ""] "2024-01-01" "2024-12-31".

Definition cfg_nobody : config :=
  mkConfig "path/to/repositories" [] "2024-01-01" "2024-12-31".

(** A run whose [REPOS_DIR] is no directory. *)
Definition missing_root_world : world := mkWorld File (sample_git log_alice).

(** A [git] whose author query fails while the commit query answers. *)
Definition authorless_git (repo_dir : path) (cmd : list string)
  : CompletedProcess :=
  if bool_decide (cmd = all_authors_cmd)
  then mkProcess 128 "" "fatal: not a git repository"
  else mkProcess 0 log_alice "".

Definition authorless_world : world := mkWorld sample_tree authorless_git.

(** A directory named as the output artifact, with a [.git] folder that
    holds a directory [y] with a [.git] of its own. *)
Definition artifact_tree : node :=
  Dir [("commit_history",
        Dir [(".git", Dir [("y", Dir [(".git", Dir [])])])])].

Definition artifact_world : world := mkWorld artifact_tree (sample_git log_alice).

(** * Properties *)

(** ** Evaluating the primitives *)

Example split_subject_with_commas :
  Str.split "," (Some 2%nat) "2024-01-01 10:00:00,alice,fix: a, b, c"
  = ["2024-01-01 10:00:00"; "alice"; "fix: a, b, c"].
Proof. reflexivity. Qed.

Example split_two_fields : Str.split "," (Some 2%nat) "a,b" = ["a"; "b"].
Proof. reflexivity. Qed.

Example split_empty : Str.split "," (Some 2%nat) "" = [""].
Proof. reflexivity. Qed.

Example splitlines_ex :
  Str.splitlines ("a" +:+ String "010" ("b" +:+ String "013" (String "010" "")))
  = ["a"; "b"].
Proof. reflexivity. Qed.

Example lower_ex : Str.lower "Alice-DEV" = "alice-dev".
Proof. reflexivity. Qed.

Example contains_ex : Str.contains (Str.lower "Alice") (Str.lower "alice-dev") = true.
Proof. reflexivity. Qed.

Example iso_naive :
  fromisoformat "2024-01-01T10:00:00" = Some (mkDatetime 2024 1 1 10 0 0 0 None).
Proof. reflexivity. Qed.

Example iso_date_only :
  fromisoformat "2024-01-01" = Some (mkDatetime 2024 1 1 0 0 0 0 None).
Proof. reflexivity. Qed.

Example iso_utc :
  fromisoformat "2024-01-01T10:00:00+00:00"
  = Some (mkDatetime 2024 1 1 10 0 0 0 (Some 0)).
Proof. reflexivity. Qed.

Example iso_offset :
  fromisoformat "2024-01-01T10:00:00.250-05:30"
  = Some (mkDatetime 2024 1 1 10 0 0 250000 (Some (-19800000000))).
Proof. reflexivity. Qed.

Example iso_git_format_rejected :
  fromisoformat "2024-01-01T10:00:00T+0530" = None.
Proof. reflexivity. Qed.

Example iso_bad_day : fromisoformat "2023-02-29" = None.
Proof. reflexivity. Qed.

Example strftime_ex :
  DT.strftime (mkDatetime 2024 1 3 9 0 0 0 None) = "2024-01-03 09:00:00".
Proof. reflexivity. Qed.

Example instant_ex :
  DT.instant (mkDatetime 2024 1 1 10 0 0 0 (Some 3600000000))
  = DT.instant (mkDatetime 2024 1 1 9 0 0 0 (Some 0)).
Proof. reflexivity. Qed.

(** ** Strings: splitting, joining, searching *)

Lemma append_nil_r (s : string) : s +:+ "" = s.
Proof. induction s; simpl; congruence. Qed.

Lemma append_assoc (a b c : string) : (a +:+ b) +:+ c = a +:+ b +:+ c.
Proof. induction a; simpl; congruence. Qed.

Lemma count_append (c : ascii) (a b : string) :
  Str.count c (a +:+ b) = (Str.count c a + Str.count c b)%nat.
Proof. induction a as [|x a IH]; simpl; [done|]. rewrite IH. lia. Qed.

Lemma split_nonempty sep m s : Str.split sep m s ≠ [].
Proof.
  destruct s as [|c s]; destruct m as [[|n]|]; simpl; try done;
    destruct (Ascii.eqb c sep); try done;
    destruct (Str.split sep _ s); done.
Qed.

Lemma split_zero sep s : Str.split sep (Some O) s = [s].
Proof. by destruct s. Qed.

Lemma split_first sep n a r :
  Str.count sep a = O →
  Str.split sep (Some (S n)) (a +:+ String sep r) = a :: Str.split sep (Some n) r.
Proof.
  induction a as [|c a IH]; simpl; intros Hc.
  - by rewrite Ascii.eqb_refl.
  - destruct (Ascii.eqb c sep); [done|]. by rewrite IH.
Qed.

Lemma split_inv sep s : ∀ m f g rest,
  Str.split sep m s = f :: g :: rest →
  Str.count sep f = O ∧
  ∃ r, s = f +:+ String sep r ∧ Str.split sep (Nat.pred <$> m) r = g :: rest.
Proof.
  induction s as [|c s IH]; intros m f g rest H.
  - destruct m as [[|n]|]; discriminate.
  - assert (Hm : m ≠ Some O) by (intros ->; discriminate).
    assert (Hstep : Str.split sep m (String c s) =
      if Ascii.eqb c sep then "" :: Str.split sep (Nat.pred <$> m) s
      else match Str.split sep m s with
           | [] => [String c ""]
           | f :: fs => String c f :: fs
           end) by (destruct m as [[|n]|]; done).
    rewrite Hstep in H. clear Hstep.
    destruct (Ascii.eqb c sep) eqn:E.
    + apply Ascii.eqb_eq in E as ->. injection H as <- H.
      split; [done|]. by exists s.
    + destruct (Str.split sep m s) as [|f' fs] eqn:Es; [discriminate|].
      injection H as <- ->.
      destruct (IH _ _ _ _ Es) as (Hc & r & -> & Hr).
      split; [simpl; by rewrite E|]. by exists r.
Qed.

Lemma join_cons sep x y l :
  Str.join sep (x :: y :: l) = x +:+ sep +:+ Str.join sep (y :: l).
Proof. done. Qed.

(** [sep.join(s.split(sep, maxsplit)) == s] *)
Lemma join_split sep s : ∀ m, Str.join (String sep "") (Str.split sep m s) = s.
Proof.
  induction s as [|c s IH]; intros m.
  - by destruct m as [[|n]|].
  - assert (Hstep : m = Some O ∨ Str.split sep m (String c s) =
      if Ascii.eqb c sep then "" :: Str.split sep (Nat.pred <$> m) s
      else match Str.split sep m s with
           | [] => [String c ""]
           | f :: fs => String c f :: fs
           end) by (destruct m as [[|n]|]; auto).
    destruct Hstep as [-> | ->]; [done|].
    destruct (Ascii.eqb c sep) eqn:E.
    + apply Ascii.eqb_eq in E as ->.
      specialize (IH (Nat.pred <$> m)).
      destruct (Str.split sep (Nat.pred <$> m) s) eqn:Es;
        [by apply split_nonempty in Es|].
      rewrite join_cons, IH. done.
    + specialize (IH m).
      destruct (Str.split sep m s) as [|f [|g fs]] eqn:Es;
        [by apply split_nonempty in Es| |].
      * by rewrite <- IH.
      * rewrite join_cons in *. by rewrite <- IH.
Qed.

(** A line splits in three exactly when it reads [a,b,m] with no comma in
    [a] and [b]. *)
Lemma split3_iff line a b m :
  Str.split "," (Some 2%nat) line = [a; b; m] ↔
  line = a +:+ "," +:+ b +:+ "," +:+ m ∧
  Str.count "," a = O ∧ Str.count "," b = O.
Proof.
  split.
  - intros H. destruct (split_inv _ _ _ _ _ _ H) as (Ha & r & -> & Hr).
    simpl in Hr. destruct (split_inv _ _ _ _ _ _ Hr) as (Hb & r' & -> & Hr').
    simpl in Hr'. rewrite split_zero in Hr'. by injection Hr' as ->.
  - intros (-> & Ha & Hb).
    change ("," +:+ b +:+ "," +:+ m) with (String "," (b +:+ String "," m)).
    rewrite split_first by done. rewrite split_first by done.
    by rewrite split_zero.
Qed.

Lemma startswith_spec p s : Str.startswith p s = true ↔ ∃ t, s = p +:+ t.
Proof.
  revert s. induction p as [|a p IH]; intros s; simpl.
  - split; [by exists s|done].
  - destruct s as [|b s].
    + split; [done|]. by intros [t Ht].
    + rewrite andb_true_iff, Ascii.eqb_eq, IH. split.
      * intros [-> [t ->]]. by exists t.
      * intros [t Ht]. injection Ht as -> ->. split; [done|by exists t].
Qed.

Lemma contains_spec sub s : Str.contains sub s = true ↔ is_substring sub s.
Proof.
  induction s as [|c s IH].
  - simpl. rewrite orb_false_r, startswith_spec. split.
    + intros [t Ht]. by exists "", t.
    + intros (pre & post & H). destruct pre; [by exists post|discriminate].
  - cbn [Str.contains]. rewrite orb_true_iff, IH, startswith_spec. split.
    + intros [[t Ht]|(pre & post & ->)].
      * by exists "", t.
      * by exists (String c pre), post.
    + intros (pre & post & H). destruct pre as [|x pre].
      * left. by exists post.
      * right. injection H as -> ->. by exists pre, post.
Qed.

(** ** The extractor, equation by equation *)

Lemma get_commit_history_not_repo cfg w repo_dir s e :
  isdir w (repo_dir ++ [".git"]) = false →
  get_commit_history cfg w repo_dir s e
  = (([], ∅),
     ["  Skipping " +:+ relpath repo_dir +:+ " - not a git repository"]).
Proof. unfold get_commit_history. by intros ->. Qed.

Lemma get_commit_history_commits cfg w repo_dir s e :
  isdir w (repo_dir ++ [".git"]) = true →
  (get_commit_history cfg w repo_dir s e).1.1
  = if returncode (log_query w repo_dir s e) =? 0
    then fold_left (process_line cfg (relpath repo_dir))
                   (Str.splitlines (stdout (log_query w repo_dir s e))) []
    else [].
Proof.
  unfold get_commit_history, log_query. intros ->. simpl.
  destruct (returncode (git w repo_dir all_authors_cmd) =? 0);
    destruct (returncode (git w repo_dir (git_cmd s e)) =? 0); done.
Qed.

Lemma get_commit_history_authors cfg w repo_dir s e :
  (get_commit_history cfg w repo_dir s e).1.2
  = if isdir w (repo_dir ++ [".git"]) && (returncode (author_query w repo_dir) =? 0)
    then list_to_set (Str.splitlines (stdout (author_query w repo_dir)))
    else ∅.
Proof.
  unfold get_commit_history, author_query.
  destruct (isdir w (repo_dir ++ [".git"])); [|done]. simpl.
  destruct (returncode (git w repo_dir all_authors_cmd) =? 0);
    destruct (returncode (git w repo_dir (git_cmd s e)) =? 0); done.
Qed.

Lemma get_commit_history_output cfg w repo_dir s e :
  isdir w (repo_dir ++ [".git"]) = true →
  (get_commit_history cfg w repo_dir s e).2
  = (if returncode (author_query w repo_dir) =? 0
     then ["  All authors in " +:+ relpath repo_dir +:+ ": " +:+
           Str.join ", " (elements (get_commit_history cfg w repo_dir s e).1.2)]
     else [])
    ++ ["  Running command: " +:+ Str.join " " (git_cmd s e)]
    ++ (if returncode (log_query w repo_dir s e) =? 0
        then ["  Found " +:+
              pretty (length (Str.splitlines (stdout (log_query w repo_dir s e))))
              +:+ " total commit entries";
              "  Found " +:+
              pretty (length (get_commit_history cfg w repo_dir s e).1.1)
              +:+ " commits matching your username(s)"]
        else ["  Error running git log: " +:+ stderr (log_query w repo_dir s e)]).
Proof.
  intros Hd. rewrite get_commit_history_authors, get_commit_history_commits, Hd by done.
  unfold get_commit_history, log_query, author_query. rewrite Hd. simpl.
  destruct (returncode (git w repo_dir all_authors_cmd) =? 0);
    destruct (returncode (git w repo_dir (git_cmd s e)) =? 0); done.
Qed.

(** The loop over the lines only ever appends: each line contributes what
    it contributes to an empty history. *)
Lemma process_line_app cfg repo_name commit_history line :
  process_line cfg repo_name commit_history line
  = commit_history ++ process_line cfg repo_name [] line.
Proof.
  unfold process_line.
  destruct (Str.split "," (Some 2%nat) line) as [|a [|b [|m [|? ?]]]];
    try by rewrite app_nil_r.
  destruct (fromisoformat (normalize a)); [|by rewrite app_nil_r].
  destruct (matches_username cfg b); by rewrite ?app_nil_r.
Qed.

Lemma fold_process_line cfg repo_name lines : ∀ commit_history,
  fold_left (process_line cfg repo_name) lines commit_history
  = commit_history ++ concat (process_line cfg repo_name [] <$> lines).
Proof.
  induction lines as [|l lines IH]; intros h; simpl.
  - by rewrite app_nil_r.
  - rewrite IH, (process_line_app _ _ h). by rewrite <- app_assoc.
Qed.

Lemma fold_all_dropped cfg repo_name lines :
  (∀ line, line ∈ lines → process_line cfg repo_name [] line = []) →
  fold_left (process_line cfg repo_name) lines [] = [].
Proof.
  intros H. rewrite fold_process_line. cbn [app].
  induction lines as [|l ls IH]; [done|].
  rewrite fmap_cons. cbn [concat]. rewrite IH, app_nil_r.
  - apply H, list_elem_of_here.
  - intros line Hin. by apply H, list_elem_of_further.
Qed.

Lemma matches_username_spec cfg author :
  matches_username cfg author = true ↔
  ∃ username, username ∈ YOUR_USERNAMES cfg ∧
              is_substring (Str.lower username) (Str.lower author).
Proof.
  unfold matches_username. rewrite existsb_exists. split.
  - intros (u & Hin & Hc). exists u. split.
    + by apply list_elem_of_In.
    + by apply contains_spec.
  - intros (u & Hin & Hs). exists u. split.
    + by apply list_elem_of_In.
    + by apply contains_spec.
Qed.

(** ** The identity filter *)

(** C1: a line that parses is kept, as the record of its repository, date
    and subject, exactly when the lower-cased author contains the
    lower-cased form of one of the configured usernames; otherwise the
    history is left as it was. With the filter [["Alice"]] the author
    [alice-dev] is kept. *)
Theorem identity_filter_iff cfg repo_name commit_history line
        date_str author message date_obj :
  Str.split "," (Some 2%nat) line = [date_str; author; message] →
  fromisoformat (normalize date_str) = Some date_obj →
  let result := process_line cfg repo_name commit_history line in
  let matched := ∃ username, username ∈ YOUR_USERNAMES cfg ∧
                   is_substring (Str.lower username) (Str.lower author) in
  (result = commit_history ++ [mkCommit repo_name date_obj message] ↔ matched) ∧
  (result = commit_history ↔ ¬ matched) ∧
  (YOUR_USERNAMES cfg = ["Alice"] → author = "alice-dev" →
   result = commit_history ++ [mkCommit repo_name date_obj message]).
Proof.
  intros Hsplit Hdate result matched.
  assert (Hres : result = if matches_username cfg author
                          then commit_history ++ [mkCommit repo_name date_obj message]
                          else commit_history).
  { unfold result, process_line. by rewrite Hsplit, Hdate. }
  assert (Hne : commit_history ++ [mkCommit repo_name date_obj message]
                ≠ commit_history).
  { intros H. apply (f_equal length) in H. rewrite length_app in H. simpl in H. lia. }
  pose proof (matches_username_spec cfg author) as Hspec. fold matched in Hspec.
  rewrite Hres. destruct (matches_username cfg author) eqn:Hm.
  - assert matched by by apply Hspec.
    repeat split; try done; intros H'; by apply Hne in H'.
  - assert (¬ matched) by (intros Hx; apply Hspec in Hx; done).
    assert (Hal : YOUR_USERNAMES cfg = ["Alice"] → author ≠ "alice-dev").
    { intros Hu ->. unfold matches_username in Hm. rewrite Hu in Hm. discriminate. }
    split_and!; [split|split|]; try done.
    all: try (intros H'; symmetry in H'; done).
    intros Hu Ha. by destruct (Hal Hu).
Qed.

Lemma identity_filter_iff_witness :
  process_line cfg_alice "demo" [] "2024-01-01 10:00:00,alice-dev,first commit"
  = [mkCommit "demo" (mkDatetime 2024 1 1 10 0 0 0 None) "first commit"].
Proof.
  apply (identity_filter_iff cfg_alice "demo" []
           "2024-01-01 10:00:00,alice-dev,first commit"
           "2024-01-01 10:00:00" "alice-dev" "first commit"
           (mkDatetime 2024 1 1 10 0 0 0 None)); reflexivity.
Defined.

(** ** The date bounds of the query *)

(** C3: the commit query carries [--since=] and [--until=] exactly when
    both dates are given and non-empty; with one of them missing the
    command line, and with it the whole result of the extractor, is the one
    of a call with no date at all. *)
Theorem date_flags_iff_both (start_date end_date : option string) :
  (existsb is_date_flag (git_cmd start_date end_date) = true
   ↔ truthy start_date = true ∧ truthy end_date = true) ∧
  (truthy start_date = true ∧ truthy end_date = true →
   git_cmd start_date end_date
   = git_cmd None None ++ ["--since=" +:+ fmt start_date;
                           "--until=" +:+ fmt end_date]) ∧
  (¬ (truthy start_date = true ∧ truthy end_date = true) →
   git_cmd start_date end_date = git_cmd None None ∧
   ∀ cfg w repo_dir,
     get_commit_history cfg w repo_dir start_date end_date
     = get_commit_history cfg w repo_dir None None).
Proof.
  unfold git_cmd.
  destruct (truthy start_date) eqn:Hs, (truthy end_date) eqn:He; simpl;
    (split_and!; [split| |]); try done; try tauto; try (by intros []).
  all: intros _; split; [done|]; intros cfg w repo_dir;
    unfold get_commit_history, git_cmd; by rewrite Hs, ?He.
Qed.

Lemma date_flags_iff_both_witness :
  git_cmd (Some "2024-01-01") None = git_cmd None None ∧
  git_cmd (Some "2024-01-01") (Some "2024-12-31")
  = ["git"; "log"; "--pretty=format:%cd,%an,%s"; "--date=iso";
     "--since=2024-01-01"; "--until=2024-12-31"].
Proof.
  split.
  - apply (date_flags_iff_both (Some "2024-01-01") None). by intros [_ H].
  - apply (date_flags_iff_both (Some "2024-01-01") (Some "2024-12-31")).
    split; reflexivity.
Defined.

(** ** Subjects with commas *)

(** C4: a line [timestamp,author,subject] is split at its first two commas
    only, so that the third field is the whole subject, commas included;
    conversely the message of any line that splits in three is the line
    without its first two fields and their commas. The record stored for
    the line carries that message unchanged. *)
Theorem subject_preserved cfg repo_name commit_history
        (timestamp author subject : string) :
  Str.count "," timestamp = O → Str.count "," author = O →
  let line := timestamp +:+ "," +:+ author +:+ "," +:+ subject in
  Str.split "," (Some 2%nat) line = [timestamp; author; subject] ∧
  (∀ a b message, Str.split "," (Some 2%nat) line = [a; b; message] →
     line = a +:+ "," +:+ b +:+ "," +:+ message ∧ message = subject) ∧
  (∀ date_obj, fromisoformat (normalize timestamp) = Some date_obj →
     matches_username cfg author = true →
     process_line cfg repo_name commit_history line
     = commit_history ++ [mkCommit repo_name date_obj subject]) ∧
  (∀ c, c ∈ process_line cfg repo_name commit_history line →
     c ∈ commit_history ∨ c_message c = subject).
Proof.
  intros Ht Ha line.
  assert (Hsplit : Str.split "," (Some 2%nat) line = [timestamp; author; subject])
    by by apply split3_iff.
  split_and!; [done| | |].
  - intros a b message H. rewrite Hsplit in H. injection H as <- <- <-. done.
  - intros d Hd Hm. unfold process_line. by rewrite Hsplit, Hd, Hm.
  - intros c. unfold process_line. rewrite Hsplit.
    destruct (fromisoformat (normalize timestamp)); [|by left].
    destruct (matches_username cfg author); [|by left].
    rewrite elem_of_app, list_elem_of_singleton. intros [?| ->]; [by left|by right].
Qed.

Lemma subject_preserved_witness :
  process_line cfg_alice "demo" [] "2024-01-01 10:00:00,alice-dev,fix: a, b, c"
  = [mkCommit "demo" (mkDatetime 2024 1 1 10 0 0 0 None) "fix: a, b, c"].
Proof.
  apply (subject_preserved cfg_alice "demo" []
           "2024-01-01 10:00:00" "alice-dev" "fix: a, b, c");
    reflexivity.
Defined.

(** ** Malformed lines *)

(** C6: a line that does not split in three fields, or whose timestamp
    [fromisoformat] rejects, leaves the history as it is; the loop goes on,
    and the lines before and after it yield what they yield without it. The
    model of the loop body is a total function that prints nothing. *)
Theorem malformed_line_dropped cfg repo_name (line : string) :
  (length (Str.split "," (Some 2%nat) line) ≠ 3%nat ∨
   ∃ date_str author message,
     Str.split "," (Some 2%nat) line = [date_str; author; message] ∧
     fromisoformat (normalize date_str) = None) →
  (∀ commit_history,
     process_line cfg repo_name commit_history line = commit_history) ∧
  (∀ before after,
     fold_left (process_line cfg repo_name) (before ++ line :: after) []
     = fold_left (process_line cfg repo_name) (before ++ after) []) ∧
  (∀ w repo_dir s e before after,
     relpath repo_dir = repo_name →
     isdir w (repo_dir ++ [".git"]) = true →
     returncode (log_query w repo_dir s e) = 0 →
     Str.splitlines (stdout (log_query w repo_dir s e)) = before ++ line :: after →
     (get_commit_history cfg w repo_dir s e).1.1
     = fold_left (process_line cfg repo_name) (before ++ after) []).
Proof.
  intros Hbad.
  assert (Hdrop : ∀ h, process_line cfg repo_name h line = h).
  { intros h. unfold process_line. destruct Hbad as [Hlen|(d & a & m & -> & ->)]; [|done].
    destruct (Str.split "," (Some 2%nat) line) as [|? [|? [|? [|? ?]]]]; done. }
  assert (Hfold : ∀ before after,
     fold_left (process_line cfg repo_name) (before ++ line :: after) []
     = fold_left (process_line cfg repo_name) (before ++ after) []).
  { intros before after. rewrite !fold_left_app. simpl. by rewrite Hdrop. }
  split_and!; [done|done|].
  intros w repo_dir s e before after <- Hd Hrc Hlines.
  rewrite get_commit_history_commits, Hrc, Hlines by done. simpl. apply Hfold.
Qed.

Lemma malformed_line_dropped_witness :
  fold_left (process_line cfg_alice "demo")
    (["2024-01-01 10:00:00,alice-dev,one"] ++
     "no-subject,alice-dev" :: ["2024-01-03 09:00:00,Alice,two"]) []
  = fold_left (process_line cfg_alice "demo")
      (["2024-01-01 10:00:00,alice-dev,one"] ++
       ["2024-01-03 09:00:00,Alice,two"]) [].
Proof.
  apply (malformed_line_dropped cfg_alice "demo" "no-subject,alice-dev").
  left. vm_compute. lia.
Defined.

(** ** What [fromisoformat] accepts *)

Lemma fromisoformat_valid s d : fromisoformat s = Some d → Iso.valid d = true.
Proof.
  unfold fromisoformat, Iso.parse, Iso.make, Iso.valid. intros H.
  destruct (Iso.parse_isoformat_date s) as [[[[y m] dd] rest]|]; [|done].
  cbn [mbind option_bind] in H. destruct rest as [|x tstr].
  - destruct (Iso.valid_fields y m dd 0 0 0 0) eqn:E; [|done]. by injection H as <-.
  - destruct (Iso.parse_isoformat_time tstr) as [[[[[hh mm] ss] us] tz]|]; [|done].
    cbn [mbind option_bind] in H.
    destruct (Iso.valid_fields y m dd hh mm ss us) eqn:E; [|done]. by injection H as <-.
Qed.

Section IsoChars.
(** A character that is no digit and none of [-], [:], [.] and [+]. *)
Variable c : ascii.
Hypothesis c_digit : Iso.digit_value c = None.
Hypothesis c_dash : c ≠ "-"%char.
Hypothesis c_colon : c ≠ ":"%char.
Hypothesis c_dot : c ≠ "."%char.
Hypothesis c_plus : c ≠ "+"%char.













End IsoChars.





(** ** Timestamps with spaces *)




(** ** The orchestrator *)

Lemma elem_of_concat {A} (x : A) (ls : list (list A)) :
  x ∈ concat ls ↔ ∃ l, x ∈ l ∧ l ∈ ls.
Proof.
  induction ls as [|l ls IH]; cbn [concat].
  - split; [by intros ?%elem_of_nil|]. by intros (l & _ & ?%elem_of_nil).
  - rewrite elem_of_app, IH. split.
    + intros [H|(l' & H & Hl')]; [exists l|exists l']; split; try done.
      * apply list_elem_of_here.
      * by apply list_elem_of_further.
    + intros (l' & H & [->|Hl']%elem_of_cons); [by left|right; eauto].
Qed.

Lemma process_repos_cons cfg w repo_path rest acc :
  process_repos cfg w (repo_path :: rest) acc
  = let r := extract cfg w repo_path in
    let k := process_repos cfg w rest (acc.1 ++ r.1.1, acc.2 ∪ r.1.2) in
    (k.1, ("Processing repository: " +:+ relpath repo_path) :: r.2 ++ k.2).
Proof.
  unfold extract. cbn [process_repos]. unfold bind, print.
  destruct (get_commit_history _ _ _ _ _) as [[cs au] o]. cbn.
  by destruct (process_repos _ _ _ _) as [v o'].
Qed.

Lemma process_repos_commits cfg w repos : ∀ acc,
  (process_repos cfg w repos acc).1.1
  = acc.1 ++ concat ((λ r, (extract cfg w r).1.1) <$> repos).
Proof.
  induction repos as [|r repos IH]; intros acc.
  - simpl. by rewrite app_nil_r.
  - rewrite process_repos_cons. cbn. rewrite IH. cbn. by rewrite <- app_assoc.
Qed.

Lemma process_repos_authors cfg w repos : ∀ acc,
  (process_repos cfg w repos acc).1.2
  = acc.2 ∪ ⋃ ((λ r, (extract cfg w r).1.2) <$> repos).
Proof.
  induction repos as [|r repos IH]; intros acc.
  - change (acc.2 = acc.2 ∪ ⋃ []). rewrite union_list_nil. by rewrite (right_id_L ∅ (∪)).
  - rewrite process_repos_cons. cbn [fst snd]. rewrite IH. cbn [fst snd].
    rewrite fmap_cons, union_list_cons. by rewrite (assoc_L (∪)).
Qed.

Lemma process_repos_output cfg w repos : ∀ acc,
  (process_repos cfg w repos acc).2
  = concat ((λ r, ("Processing repository: " +:+ relpath r) :: (extract cfg w r).2)
            <$> repos).
Proof.
  induction repos as [|r repos IH]; intros acc.
  - done.
  - rewrite process_repos_cons. cbn. by rewrite IH.
Qed.

Lemma collect_all_commits_outcome cfg w :
  (collect_all_commits cfg w).1
  = match all_commits cfg w with
    | [] => NotWritten
    | _ :: _ =>
      match sheet (all_commits cfg w) with
      | Ok df => Written df
      | Raise e => Failed e
      end
    end.
Proof.
  unfold collect_all_commits, all_commits, bind, print.
  destruct (process_repos _ _ _ _) as [[cs au] o]. cbn.
  destruct cs as [|c cs]; [done|].
  by destruct (sheet (c :: cs)).
Qed.

Lemma collect_all_commits_empty_output cfg w :
  all_commits cfg w = [] →
  (collect_all_commits cfg w).2
  = ["Collecting commits from " +:+ START_DATE cfg +:+ " to " +:+ END_DATE cfg;
     "Looking for commits by usernames: " +:+ Str.join ", " (YOUR_USERNAMES cfg);
     "Found " +:+ pretty (length (find_git_repos cfg w)) +:+ " Git repositories"]
    ++ (process_repos cfg w (find_git_repos cfg w) ([], ∅)).2
    ++ [String "010" "=== Summary ===";
        "All unique authors found across repositories: "
        +:+ Str.join ", " (elements (all_unique_authors cfg w));
        "Your configured usernames: " +:+ Str.join ", " (YOUR_USERNAMES cfg);
        "No commits found for your username.";
        "Please check if your username(s) match any of the authors listed above."].
Proof.
  unfold collect_all_commits, all_commits, all_unique_authors, bind, print.
  destruct (process_repos _ _ _ _) as [[cs au] o]. cbn. by intros ->.
Qed.

(** ** An empty result *)

(** C7: when no commit was collected, the run writes no file and tells so;
    the line it prints about the authors lists the whole set, which holds
    the authors of every discovered repository and no one else. *)
Theorem no_commits_no_file cfg w :
  all_commits cfg w = [] →
  (collect_all_commits cfg w).1 = NotWritten ∧
  "No commits found for your username." ∈ (collect_all_commits cfg w).2 ∧
  ("All unique authors found across repositories: "
   +:+ Str.join ", " (elements (all_unique_authors cfg w)))
    ∈ (collect_all_commits cfg w).2 ∧
  (∀ author, author ∈ all_unique_authors cfg w ↔
     ∃ repo_path, repo_path ∈ find_git_repos cfg w ∧
                  author ∈ (extract cfg w repo_path).1.2).
Proof.
  intros Hempty. split_and!.
  - by rewrite collect_all_commits_outcome, Hempty.
  - rewrite collect_all_commits_empty_output by done.
    rewrite !elem_of_app. right. right. set_solver.
  - rewrite collect_all_commits_empty_output by done.
    rewrite !elem_of_app. right. right. set_solver.
  - intros author. unfold all_unique_authors.
    rewrite process_repos_authors. cbn. rewrite elem_of_union, elem_of_union_list.
    split.
    + intros [H|(X & HX & Ha)]; [set_solver|].
      apply list_elem_of_fmap in HX as (r & -> & Hr). eauto.
    + intros (r & Hr & Ha). right. eexists. split; [|exact Ha].
      apply list_elem_of_fmap. eauto.
Qed.

Lemma no_commits_no_file_witness :
  (collect_all_commits cfg_alice (sample_world log_bob)).1 = NotWritten.
Proof.
  apply (no_commits_no_file cfg_alice (sample_world log_bob)).
  vm_compute. reflexivity.
Defined.

(** ** A failing query *)

(** C8: when the commit query of a repository exits with a code other than
    zero, the extractor returns no commit for it and prints the error
    output of the query; in the loop of the orchestrator such a repository
    adds nothing to the merged commits and every repository after it is
    still processed. *)
Theorem failed_query_is_empty cfg w repo_dir :
  isdir w (repo_dir ++ [".git"]) = true →
  (∀ s e, returncode (log_query w repo_dir s e) ≠ 0 →
     (get_commit_history cfg w repo_dir s e).1.1 = [] ∧
     ("  Error running git log: " +:+ stderr (log_query w repo_dir s e))
       ∈ (get_commit_history cfg w repo_dir s e).2) ∧
  (returncode (log_query w repo_dir (Some (START_DATE cfg)) (Some (END_DATE cfg))) ≠ 0 →
   ∀ before after acc,
     (process_repos cfg w (before ++ repo_dir :: after) acc).1.1
     = (process_repos cfg w (before ++ after) acc).1.1 ∧
     (∀ r, r ∈ after →
        (extract cfg w r).1.1 ⊆ (process_repos cfg w (before ++ repo_dir :: after) acc).1.1 ∧
        ("Processing repository: " +:+ relpath r)
          ∈ (process_repos cfg w (before ++ repo_dir :: after) acc).2)).
Proof.
  intros Hd.
  assert (Hext : ∀ s e, returncode (log_query w repo_dir s e) ≠ 0 →
     (get_commit_history cfg w repo_dir s e).1.1 = [] ∧
     ("  Error running git log: " +:+ stderr (log_query w repo_dir s e))
       ∈ (get_commit_history cfg w repo_dir s e).2).
  { intros s e Hrc. apply Z.eqb_neq in Hrc. split.
    - by rewrite get_commit_history_commits, Hrc.
    - rewrite get_commit_history_output, Hrc by done.
      rewrite !elem_of_app. right. right. set_solver. }
  split; [done|]. intros Hrc before after acc.
  destruct (Hext _ _ Hrc) as [Hnil _]. fold (extract cfg w repo_dir) in Hnil.
  split.
  - rewrite !process_repos_commits, !fmap_app, fmap_cons, !concat_app.
    cbn [concat]. by rewrite Hnil.
  - intros r Hr. split.
    + intros c Hc. rewrite process_repos_commits, fmap_app, fmap_cons, !concat_app.
      cbn [concat]. rewrite !elem_of_app. right. right. right.
      apply elem_of_concat. eexists. split; [exact Hc|].
      apply list_elem_of_fmap. eauto.
    + rewrite process_repos_output, fmap_app, fmap_cons, concat_app.
      cbn [concat]. rewrite !elem_of_app. right. right.
      apply elem_of_concat. eexists. split; [|apply list_elem_of_fmap; eauto].
      apply list_elem_of_here.
Qed.

Lemma failed_query_is_empty_witness :
  (get_commit_history cfg_alice (sample_world log_alice) ["b"]
     (Some "2024-01-01") (Some "2024-12-31")).1.1 = [] ∧
  (process_repos cfg_alice (sample_world log_alice) ([] ++ ["b"] :: [["a"]]) ([], ∅)).1.1
  = (process_repos cfg_alice (sample_world log_alice) ([] ++ [["a"]]) ([], ∅)).1.1.
Proof.
  split.
  - apply (failed_query_is_empty cfg_alice (sample_world log_alice) ["b"]).
    + reflexivity.
    + vm_compute. discriminate.
  - apply (failed_query_is_empty cfg_alice (sample_world log_alice) ["b"]).
    + reflexivity.
    + vm_compute. discriminate.
Defined.

(** ** The author set *)

(** C9: the authors the extractor returns are the lines of the answer to
    [git log --format=%an], a command line without any date flag, whatever
    the dates and the usernames of the call; so a repository whose author
    query answers with some text, and none of whose commit lines is by a
    configured username, yields no commit and a set that is not empty. *)
Theorem authors_independent_of_filters w repo_dir :
  existsb is_date_flag all_authors_cmd = false ∧
  (∀ cfg s e,
     (get_commit_history cfg w repo_dir s e).1.2
     = if isdir w (repo_dir ++ [".git"])
          && (returncode (git w repo_dir all_authors_cmd) =? 0)
       then list_to_set (Str.splitlines (stdout (git w repo_dir all_authors_cmd)))
       else ∅) ∧
  (∀ cfg cfg' s e s' e',
     (get_commit_history cfg w repo_dir s e).1.2
     = (get_commit_history cfg' w repo_dir s' e').1.2) ∧
  (∀ cfg s e,
     isdir w (repo_dir ++ [".git"]) = true →
     returncode (author_query w repo_dir) = 0 →
     stdout (author_query w repo_dir) ≠ "" →
     (∀ line date_str author message,
        line ∈ Str.splitlines (stdout (log_query w repo_dir s e)) →
        Str.split "," (Some 2%nat) line = [date_str; author; message] →
        matches_username cfg author = false) →
     (get_commit_history cfg w repo_dir s e).1.1 = [] ∧
     (get_commit_history cfg w repo_dir s e).1.2 ≠ ∅).
Proof.
  split_and!; [done| | |].
  - intros. apply get_commit_history_authors.
  - intros. by rewrite !get_commit_history_authors.
  - intros cfg s e Hd Hrc Hout Hnone. split.
    + rewrite get_commit_history_commits by done.
      destruct (returncode (log_query w repo_dir s e) =? 0); [|done].
      apply fold_all_dropped. intros l Hl. unfold process_line.
      destruct (Str.split "," (Some 2%nat) l) as [|a [|b [|m [|? ?]]]] eqn:Es; try done.
      destruct (fromisoformat (normalize a)); [|done].
      by rewrite (Hnone l a b m).
    + rewrite get_commit_history_authors, Hd, Hrc. cbn.
      destruct (stdout (author_query w repo_dir)) as [|c out] eqn:Eo; [done|].
      assert (Hl : ∃ l ls, Str.splitlines (String c out) = l :: ls).
      { cbn [Str.splitlines]. destruct (Str.is_linebreak c); [eauto|].
        destruct (Str.splitlines out); eauto. }
      destruct Hl as (l & ls & ->). set_solver.
Qed.

Lemma authors_independent_of_filters_witness :
  (get_commit_history cfg_alice (sample_world log_bob) ["a"]
     (Some "2024-01-01") (Some "2024-12-31")).1.1 = [] ∧
  (get_commit_history cfg_alice (sample_world log_bob) ["a"]
     (Some "2024-01-01") (Some "2024-12-31")).1.2 ≠ ∅.
Proof.
  apply (authors_independent_of_filters (sample_world log_bob) ["a"]).
  - reflexivity.
  - reflexivity.
  - vm_compute. discriminate.
  - intros line date_str author message Hin Hsplit.
    vm_compute in Hin.
    apply elem_of_cons in Hin as [-> | Hin].
    { vm_compute in Hsplit. injection Hsplit as <- <- <-. reflexivity. }
    apply elem_of_cons in Hin as [-> | Hin].
    { vm_compute in Hsplit. injection Hsplit as <- <- <-. reflexivity. }
    by apply elem_of_nil in Hin.
Defined.

(** ** The exported sheet *)

Lemma insert_perm c l : Frame.insert c l ≡ₚ c :: l.
Proof.
  induction l as [|x l IH]; simpl; [done|].
  destruct (Frame.key c <=? Frame.key x); [done|].
  rewrite IH. apply perm_swap.
Qed.

Lemma insert_sorted c l :
  StronglySorted ascending l → StronglySorted ascending (Frame.insert c l).
Proof.
  induction l as [|x l IH]; simpl; intros Hs.
  - repeat constructor.
  - apply StronglySorted_cons in Hs as [Hx Hl].
    destruct (Frame.key c <=? Frame.key x) eqn:E.
    + apply Z.leb_le in E. apply StronglySorted_cons. split.
      * constructor; [done|]. eapply Forall_impl; [exact Hx|].
        intros y Hy. unfold ascending in *. lia.
      * by apply StronglySorted_cons.
    + apply Z.leb_gt in E. apply StronglySorted_cons. split; [|by apply IH].
      rewrite insert_perm. constructor; [|done]. unfold ascending. lia.
Qed.

Lemma sort_perm l : Frame.sort l ≡ₚ l.
Proof.
  induction l as [|x l IH]; [done|]. cbn [Frame.sort foldr].
  rewrite insert_perm. by constructor.
Qed.

Lemma sort_sorted l : StronglySorted ascending (Frame.sort l).
Proof.
  induction l as [|x l IH]; [constructor|]. by apply insert_sorted.
Qed.

Lemma rev_sorted l :
  StronglySorted ascending l → StronglySorted descending (rev l).
Proof.
  induction 1 as [|x l Hl IH Hx]; [constructor|]. cbn [rev].
  apply StronglySorted_app_2; [|done|repeat constructor].
  intros a b Ha ->%list_elem_of_singleton.
  rewrite Forall_forall in Hx. apply Hx.
  apply list_elem_of_In, in_rev, list_elem_of_In. exact Ha.
Qed.






Lemma sort_values_desc_spec l df :
  Frame.sort_values_desc l = Ok df →
  df ≡ₚ l ∧ StronglySorted descending df.
Proof.
  unfold Frame.sort_values_desc. destruct (Frame.comparable l); [|done].
  intros [= <-]. split.
  - by rewrite <- Permutation_rev, sort_perm, <- Permutation_rev.
  - apply rev_sorted, sort_sorted.
Qed.





Example export_newest_first :
  (collect_all_commits cfg_alice (sample_world log_alice)).1
  = Written [mkRow "a" "2024-01-03 09:00:00" "second";
             mkRow "a" "2024-01-01 10:00:00" "fix: a, b, c"].
Proof. vm_compute. reflexivity. Qed.

(** ** The discoverer *)

Lemma node_ind (P : node → Prop) :
  P File →
  (∀ es, Forall (λ e, P e.2) es → P (Dir es)) →
  ∀ n, P n.
Proof.
  intros HF HD. fix IH 1. intros [|es]; [exact HF|].
  apply HD. induction es as [|[x c] es IHes]; constructor; [apply IH|exact IHes].
Qed.

Lemma wf_Dir es :
  wf (Dir es) = true ↔ NoDup es.*1 ∧ Forall (λ e, wf e.2 = true) es.
Proof.
  cbn [wf]. rewrite andb_true_iff, bool_decide_eq_true.
  apply and_iff_compat_l.
  induction es as [|[x c] es IH].
  - split; [constructor|done].
  - rewrite andb_true_iff, IH, Forall_cons. done.
Qed.

Lemma os_walk_Dir {St} (body : path → list string → list string → St → St * list string)
      root es acc :
  os_walk body root (Dir es) acc
  = let r := body root (dir_names es) (file_names es) acc in
    fold_left (λ acc e,
                 if is_dir e.2 && bool_decide (e.1 ∈ r.2)
                 then os_walk body (root ++ [e.1]) e.2 acc else acc) es r.1.
Proof.
  cbn [os_walk]. destruct (body root (dir_names es) (file_names es) acc) as [acc' dirs].
  cbn [fst snd]. generalize acc'. clear acc acc'.
  induction es as [|[x c] es IH]; intros acc; [done|]. cbn [fold_left fst snd].
  by rewrite <- IH.
Qed.

Lemma lookup_entry_elem_of x c es :
  lookup_entry x es = Some c → (x, c) ∈ es.
Proof.
  induction es as [|[y d] es IH]; [done|]. cbn.
  destruct (String.eqb y x) eqn:E.
  - apply String.eqb_eq in E as ->. intros [= ->]. apply list_elem_of_here.
  - intros H. apply list_elem_of_further. by apply IH.
Qed.

Lemma lookup_entry_Some x c es :
  NoDup es.*1 → (x, c) ∈ es → lookup_entry x es = Some c.
Proof.
  induction es as [|[y d] es IH]; intros Hnd Hin; [by apply elem_of_nil in Hin|].
  rewrite fmap_cons in Hnd. apply NoDup_cons in Hnd as [Hy Hnd]. cbn.
  apply elem_of_cons in Hin as [[= <- <-]|Hin].
  - by rewrite String.eqb_refl.
  - destruct (String.eqb y x) eqn:E; [|by apply IH].
    apply String.eqb_eq in E as ->. destruct Hy.
    apply list_elem_of_fmap. by exists (x, c).
Qed.

Lemma elem_of_dir_names x es :
  x ∈ dir_names es ↔ ∃ c, (x, c) ∈ es ∧ is_dir c = true.
Proof.
  unfold dir_names. rewrite list_elem_of_fmap. split.
  - intros ([y c] & -> & [H ?]%list_elem_of_filter). by exists c.
  - intros (c & Hin & Hd). exists (x, c). split; [done|].
    by apply list_elem_of_filter.
Qed.

Lemma NoDup_dir_names es : NoDup es.*1 → NoDup (dir_names es).
Proof.
  intros H. eapply sublist_NoDup; [exact H|].
  unfold dir_names. apply fmap_sublist, sublist_filter.
Qed.

Lemma elem_of_list_remove x y l :
  NoDup l → x ∈ list_remove y l ↔ x ∈ l ∧ x ≠ y.
Proof.
  induction l as [|z l IH]; intros Hnd; cbn.
  - split; [by intros ?%elem_of_nil|by intros [?%elem_of_nil _]].
  - apply NoDup_cons in Hnd as [Hz Hnd].
    destruct (String.eqb z y) eqn:E.
    + apply String.eqb_eq in E as ->. rewrite elem_of_cons. split.
      * intros H. split; [by right|]. by intros ->.
      * intros [[->|H] Hne]; done.
    + apply String.eqb_neq in E. rewrite !elem_of_cons, IH by done. split.
      * intros [->|[H Hne]]; [split; [by left|done]|split; [by right|done]].
      * intros [[->|H] Hne]; [by left|by right].
Qed.

Lemma resolve_app n p q :
  resolve n (p ++ q) = resolve n p ≫= λ m, resolve m q.
Proof.
  revert n. induction p as [|x p IH]; intros n; [done|]. cbn.
  destruct n as [|es]; [done|].
  destruct (lookup_entry x es) as [c|]; [|done]. cbn. apply IH.
Qed.

(** At a directory the walk is in, the test on [dirs] and the test on the
    file system agree. *)
Lemma isdir_git_iff w root es :
  NoDup es.*1 → resolve (fs w) root = Some (Dir es) →
  isdir w (root ++ [".git"]) = true ↔ ".git" ∈ dir_names es.
Proof.
  intros Hnd Hr. unfold isdir. rewrite resolve_app, Hr. cbn.
  rewrite elem_of_dir_names. split.
  - destruct (lookup_entry ".git" es) as [c|] eqn:E; [|done]. cbn.
    intros Hd. exists c. split; [|done]. by apply lookup_entry_elem_of.
  - intros (c & Hin & Hd). by rewrite (lookup_entry_Some _ _ _ Hnd Hin).
Qed.

Lemma hereb_spec cfg root es :
  hereb cfg root es = true ↔
  basename cfg root ≠ output_name ∧ ".git" ∈ dir_names es.
Proof.
  unfold hereb. rewrite andb_true_iff, negb_true_iff, bool_decide_eq_true.
  by rewrite String.eqb_neq.
Qed.

Lemma visit_eq cfg w root es files acc :
  NoDup es.*1 → resolve (fs w) root = Some (Dir es) →
  visit cfg w root (dir_names es) files acc
  = (acc ++ (if hereb cfg root es then [root] else []),
     if hereb cfg root es then list_remove ".git" (dir_names es)
     else dir_names es).
Proof.
  intros Hnd Hr. unfold visit, hereb.
  destruct (String.eqb (basename cfg root) output_name); cbn.
  { by rewrite app_nil_r. }
  destruct (bool_decide (".git" ∈ dir_names es)) eqn:E; cbn; [done|].
  destruct (isdir w (root ++ [".git"])) eqn:Ei.
  - apply (isdir_git_iff _ _ _ Hnd Hr) in Ei. by apply bool_decide_eq_false in E.
  - by rewrite app_nil_r.
Qed.

Lemma fold_children cfg w root dirs sub :
  NoDup sub.*1 →
  Forall (λ e, wf e.2 = true) sub →
  Forall (λ e, resolve (fs w) (root ++ [e.1]) = Some e.2) sub →
  Forall (λ e, walk_ok cfg w e.2) sub →
  ∀ acc, ∃ l,
    fold_left (descend_step cfg w root dirs) sub acc = acc ++ l ∧ NoDup l ∧
    ∀ p, p ∈ l ↔
         ∃ x c rel, (x, c) ∈ sub ∧
                    is_dir c && bool_decide (x ∈ dirs) = true ∧
                    p = root ++ x :: rel ∧ selected cfg c (root ++ [x]) rel.
Proof.
  induction sub as [|[x c] sub IH]; intros Hnd Hwf Hres Hok acc.
  - exists []. split_and!; [by rewrite app_nil_r|constructor|].
    intros p. split; [by intros ?%elem_of_nil|].
    by intros (? & ? & ? & ?%elem_of_nil & _).
  - rewrite fmap_cons in Hnd. apply NoDup_cons in Hnd as [Hx Hnd].
    apply Forall_cons in Hwf as [Hwc Hwf]. apply Forall_cons in Hres as [Hrc Hres].
    apply Forall_cons in Hok as [Hoc Hok]. cbn [fst snd] in *.
    cbn [fold_left]. unfold descend_step at 2. cbn [fst snd].
    destruct (is_dir c && bool_decide (x ∈ dirs)) eqn:Ec.
    + destruct (Hoc (root ++ [x]) acc Hwc Hrc) as (l1 & -> & Hnd1 & Hl1).
      destruct (IH Hnd Hwf Hres Hok (acc ++ l1)) as (l2 & -> & Hnd2 & Hl2).
      exists (l1 ++ l2). split_and!; [by rewrite app_assoc| |].
      * apply NoDup_app. split_and!; [done| |done].
        intros p (rel & -> & _)%Hl1 (y & d & rel' & Hin & _ & Heq & _)%Hl2.
        rewrite <- app_assoc in Heq. apply app_inv_head in Heq.
        injection Heq as -> _. apply Hx, list_elem_of_fmap. by exists (y, d).
      * intros p. rewrite elem_of_app, Hl1, Hl2. split.
        -- intros [(rel & -> & Hs)|(y & d & rel & Hin & Hc & -> & Hs)].
           ++ exists x, c, rel. split_and!; try done.
              ** apply list_elem_of_here.
              ** by rewrite <- app_assoc.
           ++ exists y, d, rel. split_and!; try done. by apply list_elem_of_further.
        -- intros (y & d & rel & Hin & Hc & -> & Hs).
           apply elem_of_cons in Hin as [[= -> ->]|Hin].
           ++ left. exists rel. split; [by rewrite <- app_assoc|done].
           ++ right. by exists y, d, rel.
    + destruct (IH Hnd Hwf Hres Hok acc) as (l2 & -> & Hnd2 & Hl2).
      exists l2. split_and!; [done|done|].
      intros p. rewrite Hl2. split.
      * intros (y & d & rel & Hin & Hc & -> & Hs).
        exists y, d, rel. split_and!; try done. by apply list_elem_of_further.
      * intros (y & d & rel & Hin & Hc & -> & Hs).
        apply elem_of_cons in Hin as [[= -> ->]|Hin]; [congruence|].
        by exists y, d, rel.
Qed.

Lemma os_walk_selected cfg w n : walk_ok cfg w n.
Proof.
  induction n as [|es IHes] using node_ind; intros root acc Hwf Hres.
  - exists []. split_and!; [by rewrite app_nil_r|constructor|].
    intros p. split; [by intros ?%elem_of_nil|].
    intros (rel & _ & Hs). by destruct rel.
  - apply wf_Dir in Hwf as [Hnd Hwf].
    rewrite os_walk_Dir, (visit_eq _ _ _ _ _ _ Hnd Hres). cbn [fst snd].
    set (dirs := if hereb cfg root es then _ else _).
    assert (Hchild : Forall (λ e, resolve (fs w) (root ++ [e.1]) = Some e.2) es).
    { apply Forall_forall. intros [x c] Hin. cbn [fst snd].
      rewrite resolve_app, Hres. cbn. by rewrite (lookup_entry_Some _ _ _ Hnd Hin). }
    destruct (fold_children cfg w root dirs es Hnd Hwf Hchild IHes
                (acc ++ (if hereb cfg root es then [root] else [])))
      as (l & Hl & Hndl & Hin).
    change (fold_left _ es ?a) with (fold_left (descend_step cfg w root dirs) es a).
    rewrite Hl, <- app_assoc. eexists. split; [done|].
    assert (Hcond : ∀ x c, (x, c) ∈ es →
              is_dir c && bool_decide (x ∈ dirs) = true ↔
              is_dir c = true ∧ ¬ (x = ".git" ∧ hereb cfg root es = true)).
    { intros x c Hxc. rewrite andb_true_iff, bool_decide_eq_true.
      assert (Hx : is_dir c = true →
                x ∈ dirs ↔ ¬ (x = ".git" ∧ hereb cfg root es = true)).
      { intros Hd.
        assert (x ∈ dir_names es) by (apply elem_of_dir_names; eauto).
        unfold dirs. destruct (hereb cfg root es).
        - rewrite elem_of_list_remove by by apply NoDup_dir_names. split.
          + by intros [_ Hne] [Heq _].
          + intros Hn. split; [done|]. intros ->. by apply Hn.
        - split; [by intros _ [_ ?]|done]. }
      split; intros [Hd H]; (split; [done|]); by apply (Hx Hd). }
    split.
    + apply NoDup_app. split_and!; [|intros p Hp|done].
      * destruct (hereb cfg root es); [apply NoDup_singleton|constructor].
      * intros (x & c & rel & _ & _ & -> & _)%Hin.
        destruct (hereb cfg root es); [|by apply elem_of_nil in Hp].
        apply list_elem_of_singleton in Hp.
        apply (f_equal length) in Hp. rewrite length_app in Hp. cbn in Hp. lia.
    + intros p. rewrite elem_of_app, Hin. split.
      * intros [Hp|(x & c & rel & Hxc & Hc & -> & Hs)].
        -- destruct (hereb cfg root es) eqn:Eh; [|by apply elem_of_nil in Hp].
           apply list_elem_of_singleton in Hp as ->. exists [].
           split; [by rewrite app_nil_r|]. by apply hereb_spec.
        -- exists (x :: rel). split; [done|]. cbn [selected].
           rewrite (lookup_entry_Some _ _ _ Hnd Hxc).
           apply (Hcond _ _ Hxc) in Hc as [Hd Hng].
           split_and!; [done| |done]. by rewrite <- hereb_spec.
      * intros ([|x rel] & -> & Hs).
        -- left. cbn [selected] in Hs. apply hereb_spec in Hs. rewrite Hs.
           rewrite app_nil_r. apply list_elem_of_here.
        -- right. cbn [selected] in Hs.
           destruct (lookup_entry x es) as [c|] eqn:El; [|done].
           destruct Hs as (Hd & Hng & Hs). apply lookup_entry_elem_of in El.
           exists x, c, rel. split_and!; [done| |done|done].
           apply (Hcond _ _ El). split; [done|]. by rewrite hereb_spec.
Qed.

(** The paths [find_git_repos] returns, each once. *)
Lemma find_git_repos_selected cfg w :
  wf (fs w) = true →
  NoDup (find_git_repos cfg w) ∧
  ∀ p, p ∈ find_git_repos cfg w ↔ selected cfg (fs w) [] p.
Proof.
  intros Hwf. unfold find_git_repos.
  destruct (os_walk_selected cfg w (fs w) [] [] Hwf eq_refl) as (l & -> & Hnd & Hl).
  split; [done|]. intros p. rewrite Hl. cbn. split.
  - by intros (rel & -> & Hs).
  - intros Hs. by exists p.
Qed.

Lemma resolve_is_dir_cons n x p :
  (∃ m, resolve n (x :: p) = Some m) → is_dir n = true.
Proof. destruct n; [by intros [m H]|done]. Qed.

(** [selected] in the words of the claim: the directory has a [.git]
    subdirectory, is not named as the output artifact, and lies in the
    [.git] folder of no selected directory. *)
Lemma selected_iff cfg rel : ∀ n root,
  wf n = true →
  selected cfg n root rel ↔
  (∃ m, resolve n (rel ++ [".git"]) = Some m ∧ is_dir m = true) ∧
  basename cfg (root ++ rel) ≠ output_name ∧
  ∀ q, (q ++ [".git"]) `prefix_of` rel → ¬ selected cfg n root q.
Proof.
  induction rel as [|x rel IH]; intros n root Hwf.
  - rewrite app_nil_r. destruct n as [|es]; cbn [selected].
    { split; [done|]. by intros [(m & H & _) _]. }
    apply wf_Dir in Hwf as [Hnd Hwf]. cbn. split.
    + intros [Hb (c & Hin & Hd)%elem_of_dir_names]. split_and!; [|done|].
      * exists c. by rewrite (lookup_entry_Some _ _ _ Hnd Hin).
      * intros q [k Hk]. by destruct q.
    + intros ((m & Hm & Hd) & Hb & _). split; [done|].
      destruct (lookup_entry ".git" es) as [c|] eqn:E; [|done].
      cbn in Hm. injection Hm as ->. apply elem_of_dir_names.
      exists m. split; [by apply lookup_entry_elem_of|done].
  - destruct n as [|es]; cbn [selected].
    { split; [done|]. by intros [(m & H & _) _]. }
    pose proof Hwf as Hwf'. apply wf_Dir in Hwf' as [Hnd Hwfs].
    cbn [app resolve].
    destruct (lookup_entry x es) as [c|] eqn:El; cbn [mbind option_bind];
      [|split; [done|by intros [(m & H & _) _]]].
    assert (Hwc : wf c = true).
    { apply lookup_entry_elem_of in El. rewrite Forall_forall in Hwfs.
      by apply (Hwfs (x, c)). }
    rewrite (IH c (root ++ [x]) Hwc), <- app_assoc. cbn [app].
    split.
    + intros (Hd & Hng & Hgit & Hb & Hq). split_and!; [done|done|].
      intros [|y q] Hpre Hsel.
      * cbn [app] in Hpre. apply prefix_cons_inv_1 in Hpre as <-.
        by apply Hng.
      * cbn [app] in Hpre. pose proof (prefix_cons_inv_1 _ _ _ _ Hpre) as ->.
        apply prefix_cons_inv_2 in Hpre. cbn [selected] in Hsel. rewrite El in Hsel.
        destruct Hsel as (_ & _ & Hsel). by apply (Hq q).
    + intros (Hgit & Hb & Hq).
      assert (Hd : is_dir c = true).
      { destruct Hgit as (m & Hm & _).
        destruct rel; cbn [app] in Hm; eapply resolve_is_dir_cons; eauto. }
      assert (Hng : ¬ (x = ".git" ∧ basename cfg root ≠ output_name
                              ∧ ".git" ∈ dir_names es)).
      { intros [-> Hh]. apply (Hq []); [|done].
        cbn [app]. apply prefix_cons, prefix_nil. }
      split_and!; [done|done|done|done|].
      intros q Hpre Hsel. apply (Hq (x :: q)).
      * cbn [app]. by apply prefix_cons.
      * cbn [selected]. by rewrite El.
Qed.

(** C10: on a tree whose directories list each name once, the discoverer
    returns each path at most once, and a directory is returned exactly
    when it has a [.git] subdirectory, is not named [commit_history], and
    does not lie in the [.git] folder of a returned directory. *)
Theorem discovered_repositories cfg w :
  wf (fs w) = true →
  NoDup (find_git_repos cfg w) ∧
  (∀ p, p ∈ find_git_repos cfg w ↔
        isdir w (p ++ [".git"]) = true ∧
        basename cfg p ≠ output_name ∧
        ∀ q, q ∈ find_git_repos cfg w → ¬ (q ++ [".git"]) `prefix_of` p) ∧
  output_name = "commit_history" ∧
  (∀ p, p ∈ find_git_repos cfg w → basename cfg p ≠ "commit_history") ∧
  (∀ p q, p ∈ find_git_repos cfg w → q ∈ find_git_repos cfg w →
          ¬ (q ++ [".git"]) `prefix_of` p).
Proof.
  intros Hwf. destruct (find_git_repos_selected cfg w Hwf) as [Hnd Hsel].
  assert (Hchar : ∀ p, p ∈ find_git_repos cfg w ↔
        isdir w (p ++ [".git"]) = true ∧
        basename cfg p ≠ output_name ∧
        ∀ q, q ∈ find_git_repos cfg w → ¬ (q ++ [".git"]) `prefix_of` p).
  { intros p. rewrite Hsel, (selected_iff cfg p (fs w) [] Hwf). cbn [app].
    unfold isdir. split.
    - intros ((m & -> & Hd) & Hb & Hq). split_and!; [done|done|].
      intros q Hin Hpre. apply Hsel in Hin. by apply (Hq q).
    - intros (Hd & Hb & Hq). split_and!; [|done|].
      + destruct (resolve (fs w) (p ++ [".git"])) as [m|]; [by exists m|done].
      + intros q Hpre Hin. apply Hsel in Hin. by apply (Hq q). }
  split_and!; [done|done|done| |].
  - intros p Hp. by apply Hchar in Hp as (_ & Hb & _).
  - intros p q Hp Hq. apply Hchar in Hp as (_ & _ & Hn). by apply Hn.
Qed.

Lemma discovered_repositories_witness :
  wf (fs nested_world) = true ∧ NoDup (find_git_repos cfg_alice nested_world).
Proof.
  split; [reflexivity|].
  apply (discovered_repositories cfg_alice nested_world). reflexivity.
Defined.

Example find_git_repos_nested :
  find_git_repos cfg_alice nested_world
  = [["a"]; ["commit_history"; "sub"]; ["b"; "c"]].
Proof. reflexivity. Qed.

(** * Further properties of the three functions *)

(** ** What the extractor returns *)

Lemma elem_of_process_line cfg repo_name line c :
  c ∈ process_line cfg repo_name [] line ↔
  ∃ date_str author,
    Str.split "," (Some 2%nat) line = [date_str; author; c_message c] ∧
    fromisoformat (normalize date_str) = Some (c_date c) ∧
    matches_username cfg author = true ∧
    c_repo c = repo_name.
Proof.
  unfold process_line.
  destruct (Str.split "," (Some 2%nat) line) as [|a [|b [|m [|? ?]]]] eqn:Es;
    try (split; [by intros ?%elem_of_nil|by intros (? & ? & ? & _)]).
  destruct (fromisoformat (normalize a)) as [d|] eqn:Ed.
  - destruct (matches_username cfg b) eqn:Em; cbn [app].
    + rewrite list_elem_of_singleton. split.
      * intros ->. by exists a, b.
      * intros (d' & a' & [= <- <- Hm] & Hd & _ & Hr).
        destruct c as [r cd cm]. cbn in *. congruence.
    + split; [by intros ?%elem_of_nil|].
      intros (d' & a' & [= <- <- Hm] & _ & Hm' & _). congruence.
  - split; [by intros ?%elem_of_nil|].
    intros (d' & a' & [= <- <- Hm] & Hd & _). congruence.
Qed.

Lemma length_process_line cfg repo_name line :
  (length (process_line cfg repo_name [] line) <= 1)%nat.
Proof.
  unfold process_line.
  destruct (Str.split "," (Some 2%nat) line) as [|a [|b [|m [|? ?]]]];
    cbn [length]; try lia.
  destruct (fromisoformat (normalize a)); cbn [length]; [|lia].
  destruct (matches_username cfg b); cbn [length app]; lia.
Qed.

Lemma length_concat_process_line cfg repo_name lines :
  (length (concat (process_line cfg repo_name [] <$> lines)) <= length lines)%nat.
Proof.
  induction lines as [|l ls IH]; [done|].
  rewrite fmap_cons. cbn [concat length]. rewrite length_app.
  pose proof (length_process_line cfg repo_name l). lia.
Qed.

Lemma elem_of_get_commit_history cfg w repo_dir s e c :
  c ∈ (get_commit_history cfg w repo_dir s e).1.1 ↔
  isdir w (repo_dir ++ [".git"]) = true ∧
  returncode (log_query w repo_dir s e) = 0 ∧
  ∃ line date_str author,
    line ∈ Str.splitlines (stdout (log_query w repo_dir s e)) ∧
    Str.split "," (Some 2%nat) line = [date_str; author; c_message c] ∧
    fromisoformat (normalize date_str) = Some (c_date c) ∧
    matches_username cfg author = true ∧
    c_repo c = relpath repo_dir.
Proof.
  destruct (isdir w (repo_dir ++ [".git"])) eqn:Hd.
  - rewrite get_commit_history_commits by done.
    destruct (returncode (log_query w repo_dir s e) =? 0) eqn:Hrc.
    + apply Z.eqb_eq in Hrc. rewrite fold_process_line. cbn [app].
      rewrite elem_of_concat. split.
      * intros (l & Hc & (line & -> & Hin)%list_elem_of_fmap).
        apply elem_of_process_line in Hc as (d & a & ?).
        split_and!; [done|done|]. by exists line, d, a.
      * intros (_ & _ & line & d & a & Hin & H).
        exists (process_line cfg (relpath repo_dir) [] line). split.
        -- apply elem_of_process_line. by exists d, a.
        -- apply list_elem_of_fmap. by exists line.
    + apply Z.eqb_neq in Hrc. split; [by intros ?%elem_of_nil|].
      by intros (_ & ? & _).
  - rewrite get_commit_history_not_repo by done. cbn.
    split; [by intros ?%elem_of_nil|]. by intros (? & _).
Qed.

(** X1: the commits the extractor returns are exactly the records of the
    lines of a successful commit query, on a path that is a repository,
    that split in three, carry a timestamp [fromisoformat] accepts and an
    author the filter matches; each record bears the relative path of the
    repository; there are never more commits than lines. *)
Theorem extracted_commits_exact cfg w repo_dir s e :
  (∀ c, c ∈ (get_commit_history cfg w repo_dir s e).1.1 ↔
     isdir w (repo_dir ++ [".git"]) = true ∧
     returncode (log_query w repo_dir s e) = 0 ∧
     ∃ line date_str author,
       line ∈ Str.splitlines (stdout (log_query w repo_dir s e)) ∧
       Str.split "," (Some 2%nat) line = [date_str; author; c_message c] ∧
       fromisoformat (normalize date_str) = Some (c_date c) ∧
       matches_username cfg author = true ∧
       c_repo c = relpath repo_dir) ∧
  (length (get_commit_history cfg w repo_dir s e).1.1
   <= length (Str.splitlines (stdout (log_query w repo_dir s e))))%nat ∧
  (∀ c, c ∈ (get_commit_history cfg w repo_dir s e).1.1 →
     Iso.valid (c_date c) = true).
Proof.
  split_and!.
  - intros c. apply elem_of_get_commit_history.
  - destruct (isdir w (repo_dir ++ [".git"])) eqn:Hd.
    + rewrite get_commit_history_commits by done.
      destruct (returncode (log_query w repo_dir s e) =? 0); [|cbn; lia].
      rewrite fold_process_line. apply length_concat_process_line.
    + rewrite get_commit_history_not_repo by done. cbn. lia.
  - intros c (_ & _ & line & d & a & _ & _ & Hd & _)%elem_of_get_commit_history.
    by apply fromisoformat_valid in Hd.
Qed.

(** ** A failing author query *)

(** X2: when the author query of a repository exits with a code other than
    zero, the extractor returns no author and prints no author line, and
    the commits are those of the commit query all the same. *)
Theorem author_query_failure cfg w repo_dir s e :
  isdir w (repo_dir ++ [".git"]) = true →
  returncode (author_query w repo_dir) ≠ 0 →
  (get_commit_history cfg w repo_dir s e).1.2 = ∅ ∧
  (get_commit_history cfg w repo_dir s e).1.1
  = (if returncode (log_query w repo_dir s e) =? 0
     then fold_left (process_line cfg (relpath repo_dir))
                    (Str.splitlines (stdout (log_query w repo_dir s e))) []
     else []) ∧
  Forall (λ l, Str.startswith "  All authors in " l = false)
         (get_commit_history cfg w repo_dir s e).2.
Proof.
  intros Hd Hrc. apply Z.eqb_neq in Hrc. split_and!.
  - by rewrite get_commit_history_authors, Hd, Hrc.
  - by apply get_commit_history_commits.
  - rewrite get_commit_history_output, Hrc by done. cbn [app].
    destruct (returncode (log_query w repo_dir s e) =? 0);
      repeat constructor.
Qed.

Lemma author_query_failure_witness :
  (get_commit_history cfg_alice authorless_world ["a"]
     (Some "2024-01-01") (Some "2024-12-31")).1.2 = ∅ ∧
  length (get_commit_history cfg_alice authorless_world ["a"]
            (Some "2024-01-01") (Some "2024-12-31")).1.1 = 2%nat.
Proof.
  destruct (author_query_failure cfg_alice authorless_world ["a"]
              (Some "2024-01-01") (Some "2024-12-31")) as (Ha & Hc & _).
  - reflexivity.
  - vm_compute. discriminate.
  - split; [exact Ha|]. rewrite Hc. reflexivity.
Defined.

(** ** A path that is no repository *)

(** On a path without a [.git] subdirectory the extractor returns no
    commit and no author and prints the one line that tells so; [git] is
    not consulted, so that the result is the same whatever it would
    answer. *)
Lemma not_a_repository_skipped cfg t g g' repo_dir s e :
  isdir (mkWorld t g) (repo_dir ++ [".git"]) = false →
  get_commit_history cfg (mkWorld t g) repo_dir s e
  = (([], ∅), ["  Skipping " +:+ relpath repo_dir +:+ " - not a git repository"]) ∧
  get_commit_history cfg (mkWorld t g') repo_dir s e
  = get_commit_history cfg (mkWorld t g) repo_dir s e.
Proof.
  intros Hd. rewrite !get_commit_history_not_repo; done.
Qed.

Lemma not_a_repository_skipped_example :
  get_commit_history cfg_alice (mkWorld sample_tree (sample_git log_alice))
    ["a"; "src"] None None
  = (([], ∅), ["  Skipping a/src - not a git repository"]).
Proof.
  apply (not_a_repository_skipped cfg_alice sample_tree
           (sample_git log_alice) authorless_git ["a"; "src"] None None).
  reflexivity.
Defined.

(** ** The filter *)

Lemma contains_empty s : Str.contains "" s = true.
Proof. by destruct s. Qed.

Lemma nil_if_no_elem {A} (l : list A) : (∀ x, x ∉ l) → l = [].
Proof.
  destruct l as [|x l]; [done|]. intros H. destruct (H x). apply list_elem_of_here.
Qed.

(** X3: an empty string among the usernames matches every author, so that
    every line that parses is kept. *)
Theorem empty_username_matches_everyone cfg :
  "" ∈ YOUR_USERNAMES cfg →
  (∀ author, matches_username cfg author = true) ∧
  (∀ repo_name commit_history line date_str author message date_obj,
     Str.split "," (Some 2%nat) line = [date_str; author; message] →
     fromisoformat (normalize date_str) = Some date_obj →
     process_line cfg repo_name commit_history line
     = commit_history ++ [mkCommit repo_name date_obj message]).
Proof.
  intros Hin.
  assert (Hall : ∀ author, matches_username cfg author = true).
  { intros author. unfold matches_username. apply existsb_exists.
    exists "". split; [by apply list_elem_of_In|]. apply contains_empty. }
  split; [done|].
  intros repo_name h line d a m x Hs Hd. unfold process_line.
  by rewrite Hs, Hd, Hall.
Qed.

Lemma empty_username_matches_everyone_witness :
  process_line cfg_anyone "demo" [] "2024-01-01 10:00:00,bob,first"
  = [mkCommit "demo" (mkDatetime 2024 1 1 10 0 0 0 None) "first"].
Proof.
  refine (proj2 (empty_username_matches_everyone cfg_anyone _)
            "demo" [] _ "2024-01-01 10:00:00" "bob" "first" _ _ _).
  - apply list_elem_of_further, list_elem_of_here.
  - reflexivity.
  - reflexivity.
Defined.

(** X4: with no username configured no commit is ever collected, whatever
    the repositories hold, and the run writes no file. *)
Theorem no_usernames_nothing_collected cfg w :
  YOUR_USERNAMES cfg = [] →
  all_commits cfg w = [] ∧ (collect_all_commits cfg w).1 = NotWritten.
Proof.
  intros Hu.
  assert (Hnone : all_commits cfg w = []).
  { apply nil_if_no_elem. intros c. unfold all_commits.
    rewrite process_repos_commits. cbn [fst app]. rewrite elem_of_concat.
    intros (l & Hc & (r & -> & _)%list_elem_of_fmap).
    apply elem_of_get_commit_history in Hc as (_ & _ & _ & _ & a & _ & _ & _ & Hm & _).
    unfold matches_username in Hm. by rewrite Hu in Hm. }
  split; [done|]. by rewrite collect_all_commits_outcome, Hnone.
Qed.

Lemma no_usernames_nothing_collected_witness :
  (collect_all_commits cfg_nobody (sample_world log_alice)).1 = NotWritten.
Proof.
  apply (no_usernames_nothing_collected cfg_nobody (sample_world log_alice)).
  reflexivity.
Defined.

(** X5: a filter with more usernames keeps every commit a filter with fewer
    keeps. *)
Theorem wider_filter_keeps_commits cfg cfg' w repo_dir s e :
  YOUR_USERNAMES cfg ⊆ YOUR_USERNAMES cfg' →
  (get_commit_history cfg w repo_dir s e).1.1
  ⊆ (get_commit_history cfg' w repo_dir s e).1.1.
Proof.
  intros Hsub c.
  rewrite !elem_of_get_commit_history.
  intros (Hd & Hrc & line & d & a & Hin & Hs & Hp & Hm & Hr).
  split_and!; [done|done|]. exists line, d, a. split_and!; try done.
  apply matches_username_spec in Hm as (u & Hu & Hsubstr).
  apply matches_username_spec. exists u. split; [by apply Hsub|done].
Qed.

Lemma wider_filter_keeps_commits_witness :
  (get_commit_history cfg_alice (sample_world log_alice) ["a"] None None).1.1
  ⊆ (get_commit_history cfg_anyone (sample_world log_alice) ["a"] None None).1.1.
Proof.
  apply (wider_filter_keeps_commits cfg_alice cfg_anyone).
  intros u Hu. cbn in *. apply elem_of_cons. left.
  by apply list_elem_of_singleton in Hu.
Defined.

Lemma chr_lower_idemp c : Str.chr_lower (Str.chr_lower c) = Str.chr_lower c.
Proof.
  destruct c as [[] [] [] [] [] [] [] []]; reflexivity.
Qed.

Lemma lower_idemp s : Str.lower (Str.lower s) = Str.lower s.
Proof.
  induction s as [|c s IH]; [done|]. cbn [Str.lower].
  by rewrite chr_lower_idemp, IH.
Qed.

Lemma existsb_fmap {A B} (f : B → bool) (g : A → B) (l : list A) :
  existsb f (g <$> l) = existsb (λ x, f (g x)) l.
Proof. induction l as [|x l IH]; [done|]. cbn. by rewrite <- IH. Qed.

(** X6: the filter only sees lower-cased forms: an author is matched as its
    lower-cased form is, and a list of usernames matches as the list of
    their lower-cased forms does. *)
Theorem filter_ignores_case cfg :
  (∀ author, matches_username cfg (Str.lower author) = matches_username cfg author) ∧
  (∀ cfg' author,
     YOUR_USERNAMES cfg' = Str.lower <$> YOUR_USERNAMES cfg →
     matches_username cfg' author = matches_username cfg author).
Proof.
  split.
  - intros author. unfold matches_username. by rewrite lower_idemp.
  - intros cfg' author Hu. unfold matches_username. rewrite Hu, existsb_fmap.
    clear Hu. induction (YOUR_USERNAMES cfg) as [|u us IH]; [done|].
    cbn [existsb]. by rewrite lower_idemp, IH.
Qed.

Lemma filter_ignores_case_witness :
  matches_username (mkConfig "path/to/repositories" ["alice"] "" "") "ALICE-dev"
  = matches_username cfg_alice "ALICE-dev".
Proof.
  apply (filter_ignores_case cfg_alice). reflexivity.
Defined.

(** ** The normalization of timestamps *)

Lemma replace_absent old new s :
  Str.count old s = O → Str.replace old new s = s.
Proof.
  induction s as [|c s IH]; [done|]. cbn.
  destruct (Ascii.eqb c old); [done|]. intros H. cbn. by rewrite IH.
Qed.

Lemma count_replace_same old new s :
  Str.count old new = O → Str.count old (Str.replace old new s) = O.
Proof.
  intros Hn. induction s as [|c s IH]; [done|]. cbn.
  destruct (Ascii.eqb c old) eqn:E; rewrite count_append, IH.
  - lia.
  - cbn. rewrite E. lia.
Qed.

Lemma count_replace_other c old new s :
  c ≠ old → Str.count c new = O →
  Str.count c (Str.replace old new s) = Str.count c s.
Proof.
  intros Hc Hn. induction s as [|a s IH]; [done|]. cbn.
  destruct (Ascii.eqb a old) eqn:E; rewrite count_append, IH.
  - apply Ascii.eqb_eq in E as ->.
    assert (Ascii.eqb old c = false) as -> by (apply Ascii.eqb_neq; congruence).
    lia.
  - cbn. lia.
Qed.

(** X7: a normalized timestamp holds no space and no [Z]; normalizing it
    again changes nothing, and a timestamp without space and [Z] is left as
    it is. *)
Theorem normalize_idempotent date_str :
  Str.count " " (normalize date_str) = O ∧
  Str.count "Z" (normalize date_str) = O ∧
  normalize (normalize date_str) = normalize date_str ∧
  (Str.count " " date_str = O → Str.count "Z" date_str = O →
   normalize date_str = date_str).
Proof.
  assert (Hs : Str.count " " (normalize date_str) = O).
  { unfold normalize. rewrite count_replace_other by done.
    by apply count_replace_same. }
  assert (Hz : Str.count "Z" (normalize date_str) = O).
  { unfold normalize. by apply count_replace_same. }
  assert (Hid : ∀ t, Str.count " " t = O → Str.count "Z" t = O → normalize t = t).
  { intros t H1 H2. unfold normalize. rewrite (replace_absent " ") by done.
    by apply replace_absent. }
  split_and!; [done|done| |apply Hid]. by apply Hid.
Qed.

Lemma normalize_idempotent_witness :
  normalize "2024-01-01T10:00:00+05:30" = "2024-01-01T10:00:00+05:30".
Proof.
  apply (normalize_idempotent "2024-01-01T10:00:00+05:30"); reflexivity.
Defined.

(** ** The merged commits and the sheet *)

Lemma length_concat_fmap {A B} (f : A → list B) (l : list A) :
  length (concat (f <$> l)) = sum_list ((λ x, length (f x)) <$> l).
Proof.
  induction l as [|x l IH]; [done|].
  rewrite !fmap_cons. cbn [concat sum_list sum_list_with]. by rewrite length_app, IH.
Qed.

Lemma elem_of_all_commits cfg w c :
  c ∈ all_commits cfg w ↔
  ∃ repo_path, repo_path ∈ find_git_repos cfg w ∧ c ∈ (extract cfg w repo_path).1.1.
Proof.
  unfold all_commits. rewrite process_repos_commits. cbn [fst app].
  rewrite elem_of_concat. split.
  - intros (l & Hc & (r & -> & Hr)%list_elem_of_fmap). eauto.
  - intros (r & Hr & Hc). eexists. split; [exact Hc|].
    apply list_elem_of_fmap. eauto.
Qed.

(** X8: the merged list is the commits of the discovered repositories, one
    repository after the other in the order of discovery, with nothing
    dropped and nothing merged: its length is the sum of theirs. *)
Theorem merged_commits_keep_all cfg w :
  all_commits cfg w
  = concat ((λ r, (extract cfg w r).1.1) <$> find_git_repos cfg w) ∧
  length (all_commits cfg w)
  = sum_list ((λ r, length (extract cfg w r).1.1) <$> find_git_repos cfg w) ∧
  (∀ c, c ∈ all_commits cfg w ↔
     ∃ repo_path, repo_path ∈ find_git_repos cfg w ∧
                  c ∈ (extract cfg w repo_path).1.1).
Proof.
  assert (H : all_commits cfg w
              = concat ((λ r, (extract cfg w r).1.1) <$> find_git_repos cfg w)).
  { unfold all_commits. by rewrite process_repos_commits. }
  split_and!; [done| |apply elem_of_all_commits].
  rewrite H. apply length_concat_fmap.
Qed.

Lemma written_sheet cfg w df :
  (collect_all_commits cfg w).1 = Written df →
  ∃ sorted, sorted ≡ₚ all_commits cfg w ∧ df = Frame.to_row <$> sorted.
Proof.
  rewrite collect_all_commits_outcome.
  destruct (all_commits cfg w) as [|c cs]; [done|]. unfold sheet.
  destruct (Frame.sort_values_desc (c :: cs)) as [sorted|e] eqn:Es; [|done].
  cbn [mbind result_bind]. unfold Frame.format_dates.
  destruct (Frame.datetimelike sorted); [|done]. intros [= <-].
  apply sort_values_desc_spec in Es as [Hp _]. by exists sorted.
Qed.

(** X9: a sheet that is written has one row for each collected commit, and
    its rows are exactly the rows of the lines that, in the successful
    commit query of a discovered repository, split in three, parse and
    match the filter: the repository column is the relative path, the date
    column the parsed timestamp as rendered, the message column the third
    field. *)
Theorem sheet_rows_exact cfg w df :
  (collect_all_commits cfg w).1 = Written df →
  length df = length (all_commits cfg w) ∧
  (∀ r, r ∈ df ↔
     ∃ repo_path line date_str author date_obj,
       repo_path ∈ find_git_repos cfg w ∧
       isdir w (repo_path ++ [".git"]) = true ∧
       returncode (log_query w repo_path (Some (START_DATE cfg))
                             (Some (END_DATE cfg))) = 0 ∧
       line ∈ Str.splitlines
                (stdout (log_query w repo_path (Some (START_DATE cfg))
                                   (Some (END_DATE cfg)))) ∧
       Str.split "," (Some 2%nat) line = [date_str; author; Commit_Message r] ∧
       fromisoformat (normalize date_str) = Some date_obj ∧
       matches_username cfg author = true ∧
       Repository r = relpath repo_path ∧
       Date r = DT.strftime date_obj).
Proof.
  intros (sorted & Hp & ->)%written_sheet. split.
  - by rewrite length_fmap, Hp.
  - intros r. rewrite list_elem_of_fmap. split.
    + intros (c & -> & Hc). rewrite Hp in Hc.
      apply elem_of_all_commits in Hc as (repo & Hrepo & Hc).
      apply elem_of_get_commit_history in Hc
        as (Hd & Hrc & line & d & a & Hin & Hs & Hparse & Hm & Hr).
      exists repo, line, d, a, (c_date c). by split_and!.
    + intros (repo & line & d & a & x & Hrepo & Hd & Hrc & Hin & Hs & Hparse
              & Hm & Hr & Hdate).
      exists (mkCommit (relpath repo) x (Commit_Message r)). split.
      * destruct r as [rr rd rm]. cbn in *. unfold Frame.to_row. cbn.
        by rewrite Hr, Hdate.
      * rewrite Hp. apply elem_of_all_commits. exists repo. split; [done|].
        apply elem_of_get_commit_history. split_and!; [done|done|].
        by exists line, d, a.
Qed.

Lemma sheet_rows_exact_witness :
  length [mkRow "a" "2024-01-03 09:00:00" "second";
          mkRow "a" "2024-01-01 10:00:00" "fix: a, b, c"]
  = length (all_commits cfg_alice (sample_world log_alice)).
Proof.
  apply (sheet_rows_exact cfg_alice (sample_world log_alice)).
  vm_compute. reflexivity.
Defined.

(** ** A run that finds no repository *)

Lemma process_repos_nil cfg w acc : process_repos cfg w [] acc = (acc, []).
Proof. done. Qed.

(** X10: when [REPOS_DIR] is no directory the discoverer returns nothing;
    and a run in which it returns nothing collects no commit and no author,
    writes no file and prints the count 0 and the closing advice. *)
Theorem no_repository_found cfg w :
  (is_dir (fs w) = false → find_git_repos cfg w = []) ∧
  (find_git_repos cfg w = [] →
   all_commits cfg w = [] ∧ all_unique_authors cfg w = ∅ ∧
   collect_all_commits cfg w
   = (NotWritten,
      ["Collecting commits from " +:+ START_DATE cfg +:+ " to " +:+ END_DATE cfg;
       "Looking for commits by usernames: " +:+ Str.join ", " (YOUR_USERNAMES cfg);
       "Found 0 Git repositories";
       String "010" "=== Summary ===";
       "All unique authors found across repositories: ";
       "Your configured usernames: " +:+ Str.join ", " (YOUR_USERNAMES cfg);
       "No commits found for your username.";
       "Please check if your username(s) match any of the authors listed above."])).
Proof.
  split.
  - unfold find_git_repos. by destruct (fs w).
  - intros Hnil. unfold all_commits, all_unique_authors, collect_all_commits.
    rewrite Hnil, process_repos_nil. cbn [fst snd].
    split_and!; [done|done|]. unfold bind, print, ret. cbn [fst snd].
    by rewrite elements_empty.
Qed.

Lemma no_repository_found_witness :
  (collect_all_commits cfg_alice missing_root_world).1 = NotWritten.
Proof.
  destruct (no_repository_found cfg_alice missing_root_world) as [Hfind Hrun].
  destruct (Hrun (Hfind eq_refl)) as (_ & _ & ->). reflexivity.
Defined.

(** ** More on the discoverer *)

Lemma find_git_repos_iff cfg w :
  wf (fs w) = true →
  ∀ p, p ∈ find_git_repos cfg w ↔
       isdir w (p ++ [".git"]) = true ∧
       basename cfg p ≠ output_name ∧
       ∀ q, q ∈ find_git_repos cfg w → ¬ (q ++ [".git"]) `prefix_of` p.
Proof.
  intros Hwf p. destruct (find_git_repos_selected cfg w Hwf) as [_ Hsel].
  rewrite Hsel, (selected_iff cfg p (fs w) [] Hwf). cbn [app].
  unfold isdir. split.
  - intros ((m & -> & Hd) & Hb & Hq). split_and!; [done|done|].
    intros q Hin Hpre. apply Hsel in Hin. by apply (Hq q).
  - intros (Hd & Hb & Hq). split_and!; [|done|].
    + destruct (resolve (fs w) (p ++ [".git"])) as [m|]; [by exists m|done].
    + intros q Hpre Hin. apply Hsel in Hin. by apply (Hq q).
Qed.

Lemma prefix_git_elem_of (q p : path) :
  (q ++ [".git"]) `prefix_of` p → ".git" ∈ p.
Proof.
  intros [k ->]. rewrite !elem_of_app. left. right. apply list_elem_of_here.
Qed.

Lemma basename_snoc cfg (p : path) (x : string) : basename cfg (p ++ [x]) = x.
Proof.
  unfold basename. destruct (p ++ [x]) eqn:E.
  - by destruct p.
  - rewrite <- E. apply last_last.
Qed.

(** X11: for a path none of whose components is [.git], the discoverer
    returns it exactly when it has a [.git] subdirectory and is not named
    as the output artifact; where it lies below another repository or below
    a directory named as the output artifact makes no difference. *)
Theorem plain_path_discovered_iff cfg w p :
  wf (fs w) = true →
  ".git" ∉ p →
  p ∈ find_git_repos cfg w ↔
  isdir w (p ++ [".git"]) = true ∧ basename cfg p ≠ output_name.
Proof.
  intros Hwf Hp. rewrite (find_git_repos_iff cfg w Hwf). split.
  - by intros (? & ? & _).
  - intros [Hd Hb]. split_and!; [done|done|].
    intros q _ Hpre. by apply Hp, (prefix_git_elem_of q).
Qed.

Lemma plain_path_discovered_iff_witness :
  ["commit_history"; "sub"] ∈ find_git_repos cfg_alice nested_world ∧
  ["b"; "c"] ∈ find_git_repos cfg_alice nested_world.
Proof.
  split.
  - apply (plain_path_discovered_iff cfg_alice nested_world ["commit_history"; "sub"]).
    + reflexivity.
    + intros H. by repeat (apply elem_of_cons in H as [H|H]; [discriminate H|]);
        apply elem_of_nil in H.
    + split; [reflexivity|discriminate].
  - apply (plain_path_discovered_iff cfg_alice nested_world ["b"; "c"]).
    + reflexivity.
    + intros H. by repeat (apply elem_of_cons in H as [H|H]; [discriminate H|]);
        apply elem_of_nil in H.
    + split; [reflexivity|discriminate].
Defined.

(** X12: the [.git] folder of a directory named as the output artifact is
    walked into: a directory [y] of that folder that has a [.git]
    subdirectory is returned, although it lies inside a [.git] folder. *)
Theorem artifact_git_folder_is_scanned cfg w p y :
  wf (fs w) = true →
  ".git" ∉ p →
  basename cfg p = output_name →
  y ≠ ".git" → y ≠ output_name →
  isdir w (p ++ [".git"; y; ".git"]) = true →
  (p ++ [".git"; y]) ∈ find_git_repos cfg w ∧ p ∉ find_git_repos cfg w.
Proof.
  intros Hwf Hp Hb Hy Hyo Hd.
  assert (Hnot : p ∉ find_git_repos cfg w).
  { intros (_ & Hb' & _)%(find_git_repos_iff cfg w Hwf). done. }
  split; [|done]. apply (find_git_repos_iff cfg w Hwf). split_and!.
  - by rewrite <- app_assoc.
  - change (p ++ [".git"; y]) with (p ++ [".git"] ++ [y]).
    by rewrite app_assoc, basename_snoc.
  - intros q Hq [k Hk]. rewrite <- app_assoc in Hk. cbn [app] in Hk.
    apply app_eq_app in Hk as [l [[-> Hl]|[-> Hl]]].
    + destruct l as [|a l].
      * rewrite app_nil_r in Hnot. done.
      * cbn [app] in Hl. injection Hl as <- _. apply Hp.
        rewrite elem_of_app. right. apply list_elem_of_here.
    + destruct l as [|a [|b [|c l]]]; cbn [app] in Hl.
      * rewrite app_nil_r in Hq. done.
      * by simplify_eq.
      * by simplify_eq.
      * by simplify_eq.
Qed.

Lemma artifact_git_folder_is_scanned_witness :
  ["commit_history"; ".git"; "y"] ∈ find_git_repos cfg_alice artifact_world.
Proof.
  apply (artifact_git_folder_is_scanned cfg_alice artifact_world
           ["commit_history"] "y"); try reflexivity; try discriminate.
  intros H. apply elem_of_cons in H as [H|H]; [discriminate H|].
  by apply elem_of_nil in H.
Defined.

(** ** The guard of the extractor in a run *)

Lemma collect_all_commits_output cfg w :
  (collect_all_commits cfg w).2
  = ["Collecting commits from " +:+ START_DATE cfg +:+ " to " +:+ END_DATE cfg;
     "Looking for commits by usernames: " +:+ Str.join ", " (YOUR_USERNAMES cfg);
     "Found " +:+ pretty (length (find_git_repos cfg w)) +:+ " Git repositories"]
    ++ (process_repos cfg w (find_git_repos cfg w) ([], ∅)).2
    ++ [String "010" "=== Summary ===";
        "All unique authors found across repositories: "
        +:+ Str.join ", " (elements (all_unique_authors cfg w));
        "Your configured usernames: " +:+ Str.join ", " (YOUR_USERNAMES cfg)]
    ++ match all_commits cfg w with
       | [] =>
         ["No commits found for your username.";
          "Please check if your username(s) match any of the authors listed above."]
       | _ :: _ =>
         match sheet (all_commits cfg w) with
         | Ok df =>
           ["Commit history has been exported to "
            +:+ os_path_join (REPOS_DIR cfg) (Str.join "/" OUTPUT_EXCEL);
            "Total commits found: " +:+ pretty (length df)]
         | Raise _ => []
         end
       end.
Proof.
  unfold collect_all_commits, all_commits, all_unique_authors, bind, print.
  destruct (process_repos _ _ _ _) as [[cs au] o]. cbn [fst snd].
  destruct cs as [|c cs]; [done|].
  destruct (sheet (c :: cs)); cbn [ret fst snd app]; by rewrite ?app_nil_r.
Qed.

(** X13: every path the discoverer returns passes the guard of the
    extractor, so that a run never prints the line of a skipped path. *)
Theorem run_never_skips cfg w :
  wf (fs w) = true →
  (∀ p, p ∈ find_git_repos cfg w → isdir w (p ++ [".git"]) = true) ∧
  Forall (λ l, Str.startswith "  Skipping " l = false) (collect_all_commits cfg w).2.
Proof.
  intros Hwf.
  assert (Hguard : ∀ p, p ∈ find_git_repos cfg w → isdir w (p ++ [".git"]) = true).
  { by intros p (Hd & _)%(find_git_repos_iff cfg w Hwf). }
  split; [done|].
  rewrite collect_all_commits_output. repeat apply Forall_app_2.
  - repeat constructor.
  - rewrite process_repos_output. apply Forall_concat, Forall_fmap, Forall_forall.
    intros r Hr. cbn. constructor; [done|]. unfold extract.
    rewrite get_commit_history_output by by apply Hguard.
    repeat apply Forall_app_2.
    + destruct (returncode (author_query w r) =? 0); repeat constructor.
    + repeat constructor.
    + destruct (returncode (log_query w r _ _) =? 0); repeat constructor.
  - repeat constructor.
  - destruct (all_commits cfg w); [repeat constructor|].
    destruct (sheet _); repeat constructor.
Qed.

Lemma run_never_skips_witness :
  isdir (sample_world log_alice) (["a"] ++ [".git"]) = true.
Proof.
  apply (run_never_skips cfg_alice (sample_world log_alice)).
  - reflexivity.
  - apply list_elem_of_here.
Defined.

(** ** The order of the log *)

(** X14: the loop over the lines keeps their order and treats each line on
    its own: the commits of a log made of two parts are the commits of the
    first part followed by those of the second, whatever history the loop
    starts from. *)
Theorem extraction_keeps_order cfg repo_name (before after : list string)
        (commit_history : list commit) :
  fold_left (process_line cfg repo_name) (before ++ after) commit_history
  = commit_history
    ++ fold_left (process_line cfg repo_name) before []
    ++ fold_left (process_line cfg repo_name) after [].
Proof.
  rewrite !fold_process_line. cbn [app]. by rewrite fmap_app, concat_app.
Qed.
